(** * The A32 JIT facade (A64 backend) and the VFP2 decoder of dynarmic

    A shallow embedding of
    - [src/backend/A64/a32_interface.cpp]: the [Jit] facade ([Run],
      [ClearCache], [InvalidateCacheRange], [Reset], [HaltExecution],
      [SaveContext], [LoadContext]) and its implementation record
      ([PerformCacheInvalidation], [RequestCacheInvalidation],
      [GetBasicBlock], [Execute]);
    - [src/frontend/A32/decoder/vfp2.h]: [DecodeVFP2].

    Machine integers are [Z] with the wrap-around written out, arrays are
    lists, the forward map of the code cache is a [gmap]. *)

From stdpp Require Import base gmap list strings.
From Stdlib Require Import ZArith Lia Bool Ascii String List.

Local Open Scope Z_scope.

(** ** Machine integers *)

(** [u32] and [size_t] (64 bits on the hosts of the A64 backend). *)
Definition wrap32 (x : Z) : Z := x mod 2 ^ 32.
Definition wrap64 (x : Z) : Z := x mod 2 ^ 64.

Definition is_u32 (x : Z) : Prop := 0 <= x < 2 ^ 32.
Definition is_size_t (x : Z) : Prop := 0 <= x < 2 ^ 64.

(** ** [boost::icl::interval_set<u32>]

    The pending invalidation ranges are kept in a joining interval set of
    the Boost interval container library.  It is modelled by the list of
    its maximal closed intervals in ascending order: adding an interval
    merges it with every stored interval it overlaps or touches, and
    adding an empty interval (upper bound below lower bound) does
    nothing. *)
Module IntervalSet.

Definition interval : Type := Z * Z.
Definition t : Type := list interval.

(** [discrete_interval<u32>::closed(lo, hi)] *)
Definition closed (lo hi : Z) : interval := (lo, hi).

Definition interval_is_empty (iv : interval) : bool := iv.2 <? iv.1.

Definition within (iv : interval) (x : Z) : bool :=
  (iv.1 <=? x) && (x <=? iv.2).

Definition empty : t := [].

(** [interval_set::empty()] *)
Definition is_empty (s : t) : bool :=
  match s with
  | [] => true
  | _ :: _ => false
  end.

(** [interval_set::clear()] *)
Definition clear (s : t) : t := [].

Fixpoint join (lo hi : Z) (s : t) : t :=
  match s with
  | [] => [(lo, hi)]
  | (a, b) :: rest =>
      if hi + 1 <? a then (lo, hi) :: (a, b) :: rest
      else if b + 1 <? lo then (a, b) :: join lo hi rest
      else join (Z.min lo a) (Z.max hi b) rest
  end.

(** [interval_set::add(iv)] *)
Definition add (iv : interval) (s : t) : t :=
  if interval_is_empty iv then s else join iv.1 iv.2 s.

(** Membership of one address. *)
Definition contains (s : t) (x : Z) : bool := existsb (fun iv => within iv x) s.

(** Every stored interval is non-empty. *)
Definition wf (s : t) : Prop := Forall (fun iv : interval => iv.1 <= iv.2) s.

End IntervalSet.

(** ** The guest-state block, [A32JitState]

    [backend/A64/a32_jitstate.h] is not among the sources; the record has
    the members that [a32_interface.cpp] names. *)
Record A32JitState : Type := mkA32JitState {
  CPSR_ge : Z;
  CPSR_et : Z;
  CPSR_q : Z;
  CPSR_nzcv : Z;
  CPSR_jaifm : Z;
  Reg : list Z;                       (* std::array<u32, 16> *)
  ExtReg : list Z;                    (* std::array<u32, 64> *)
  guest_FPCR : Z;
  guest_FPSR : Z;
  FPSCR_IDC : Z;
  FPSCR_UFC : Z;
  FPSCR_mode : Z;
  FPSCR_nzcv : Z;
  rsb_ptr : Z;
  rsb_location_descriptors : list Z;  (* std::array<u64, RSBSize> *)
  rsb_codeptrs : list Z;              (* std::array<u64, RSBSize> *)
  halt_requested : bool
}.

(** The three members that make up the return stack buffer. *)
Record RSB : Type := mkRSB {
  ring_ptr : Z;
  ring_location_descriptors : list Z;
  ring_codeptrs : list Z
}.

(** The five members CPSR is split into. *)
Record CPSRFields : Type := mkCPSR {
  f_ge : Z; f_et : Z; f_q : Z; f_nzcv : Z; f_jaifm : Z
}.

(** The six members FPSCR is split into. *)
Record FPSCRFields : Type := mkFPSCR {
  f_FPCR : Z; f_FPSR : Z; f_IDC : Z; f_UFC : Z; f_mode : Z; f_fnzcv : Z
}.

Definition get_rsb (s : A32JitState) : RSB :=
  mkRSB (rsb_ptr s) (rsb_location_descriptors s) (rsb_codeptrs s).

Definition set_rsb (r : RSB) (s : A32JitState) : A32JitState :=
  mkA32JitState (CPSR_ge s) (CPSR_et s) (CPSR_q s) (CPSR_nzcv s) (CPSR_jaifm s)
    (Reg s) (ExtReg s)
    (guest_FPCR s) (guest_FPSR s) (FPSCR_IDC s) (FPSCR_UFC s) (FPSCR_mode s) (FPSCR_nzcv s)
    (ring_ptr r) (ring_location_descriptors r) (ring_codeptrs r)
    (halt_requested s).

Definition set_rsb_ptr (p : Z) (s : A32JitState) : A32JitState :=
  set_rsb (mkRSB p (rsb_location_descriptors s) (rsb_codeptrs s)) s.

Definition set_cpsr (c : CPSRFields) (s : A32JitState) : A32JitState :=
  mkA32JitState (f_ge c) (f_et c) (f_q c) (f_nzcv c) (f_jaifm c)
    (Reg s) (ExtReg s)
    (guest_FPCR s) (guest_FPSR s) (FPSCR_IDC s) (FPSCR_UFC s) (FPSCR_mode s) (FPSCR_nzcv s)
    (rsb_ptr s) (rsb_location_descriptors s) (rsb_codeptrs s)
    (halt_requested s).

Definition set_fpscr (f : FPSCRFields) (s : A32JitState) : A32JitState :=
  mkA32JitState (CPSR_ge s) (CPSR_et s) (CPSR_q s) (CPSR_nzcv s) (CPSR_jaifm s)
    (Reg s) (ExtReg s)
    (f_FPCR f) (f_FPSR f) (f_IDC f) (f_UFC f) (f_mode f) (f_fnzcv f)
    (rsb_ptr s) (rsb_location_descriptors s) (rsb_codeptrs s)
    (halt_requested s).

Definition set_Reg (r : list Z) (s : A32JitState) : A32JitState :=
  mkA32JitState (CPSR_ge s) (CPSR_et s) (CPSR_q s) (CPSR_nzcv s) (CPSR_jaifm s)
    r (ExtReg s)
    (guest_FPCR s) (guest_FPSR s) (FPSCR_IDC s) (FPSCR_UFC s) (FPSCR_mode s) (FPSCR_nzcv s)
    (rsb_ptr s) (rsb_location_descriptors s) (rsb_codeptrs s)
    (halt_requested s).

Definition set_ExtReg (r : list Z) (s : A32JitState) : A32JitState :=
  mkA32JitState (CPSR_ge s) (CPSR_et s) (CPSR_q s) (CPSR_nzcv s) (CPSR_jaifm s)
    (Reg s) r
    (guest_FPCR s) (guest_FPSR s) (FPSCR_IDC s) (FPSCR_UFC s) (FPSCR_mode s) (FPSCR_nzcv s)
    (rsb_ptr s) (rsb_location_descriptors s) (rsb_codeptrs s)
    (halt_requested s).

Definition set_halt_requested (b : bool) (s : A32JitState) : A32JitState :=
  mkA32JitState (CPSR_ge s) (CPSR_et s) (CPSR_q s) (CPSR_nzcv s) (CPSR_jaifm s)
    (Reg s) (ExtReg s)
    (guest_FPCR s) (guest_FPSR s) (FPSCR_IDC s) (FPSCR_UFC s) (FPSCR_mode s) (FPSCR_nzcv s)
    (rsb_ptr s) (rsb_location_descriptors s) (rsb_codeptrs s)
    b.

(** Modelled from the spec: the constant [A32JitState::RSBPtrMask] is
    declared in the absent [a32_jitstate.h].  The spec describes the RSB
    as a power-of-two ring of 16 entries with a mask constant. *)
Definition RSBSize : Z := 16.
Definition RSBPtrMask : Z := RSBSize - 1.

(** Modelled from the spec: [A32JitState{}], the value [Jit::Reset]
    assigns and [Context::Impl] starts from, comes from the absent
    [a32_jitstate.h].  The spec says that reset zero-initializes the
    guest-state block. *)
Definition A32JitState_zero : A32JitState :=
  mkA32JitState 0 0 0 0 0
    (replicate 16 0) (replicate 64 0)
    0 0 0 0 0 0
    0 (replicate (Z.to_nat RSBSize) 0) (replicate (Z.to_nat RSBSize) 0)
    false.

(** The member functions of [A32JitState] that the facade calls and whose
    bodies are in the absent [a32_jitstate.cpp].  [ResetRSB] rewrites the
    return stack buffer, [SetCpsr] the split CPSR members and [SetFpscr]
    the split FPSCR members; what they write is left open. *)
Class A32JitStateOps : Type := {
  rsb_after_reset : A32JitState -> RSB;
  cpsr_after_set : Z -> A32JitState -> CPSRFields;
  fpscr_after_set : Z -> A32JitState -> FPSCRFields;
  GetUniqueHash : A32JitState -> Z;
  Cpsr : A32JitState -> Z;
  Fpscr : A32JitState -> Z
}.

Section JitState.
Context `{!A32JitStateOps}.

Definition ResetRSB (s : A32JitState) : A32JitState := set_rsb (rsb_after_reset s) s.
Definition SetCpsr (value : Z) (s : A32JitState) : A32JitState :=
  set_cpsr (cpsr_after_set value s) s.
Definition SetFpscr (value : Z) (s : A32JitState) : A32JitState :=
  set_fpscr (fpscr_after_set value s) s.

(** [TransferJitState(dest, src, reset_rsb)] returns the new [dest].
    Its first thirteen assignments copy the split CPSR members, the
    registers and the FP members; [halt_requested] is not assigned. *)
Definition transfer_guest_fields (dest src : A32JitState) : A32JitState :=
  mkA32JitState (CPSR_ge src) (CPSR_et src) (CPSR_q src) (CPSR_nzcv src) (CPSR_jaifm src)
    (Reg src) (ExtReg src)
    (guest_FPCR src) (guest_FPSR src)
    (FPSCR_IDC src) (FPSCR_UFC src) (FPSCR_mode src) (FPSCR_nzcv src)
    (rsb_ptr dest) (rsb_location_descriptors dest) (rsb_codeptrs dest)
    (halt_requested dest).

Definition TransferJitState (dest src : A32JitState) (reset_rsb : bool) : A32JitState :=
  let dest := transfer_guest_fields dest src in
  if reset_rsb then ResetRSB dest
  else set_rsb (mkRSB (rsb_ptr src) (rsb_location_descriptors src) (rsb_codeptrs src)) dest.

End JitState.

(** ** The code cache of the A64 backend *)

(** [A32EmitA64::BlockDescriptor]: the facade reads [entrypoint] and
    [size] (host bytes). *)
Record BlockDescriptor : Type := mkBlockDescriptor {
  entrypoint : Z;
  block_size : Z
}.

Module BlockOfCode.

(** Modelled from the spec: [backend/A64/block_of_code.h] is not among
    the sources.  The spec describes the host code arena as a
    bump-allocated executable region that a full flush resets. *)
Record t : Type := mk {
  total_code_size : Z;
  code_used : Z
}.

(** Modelled from the spec: [BlockOfCode::SpaceRemaining] is absent; the
    free space of a bump arena is its capacity less what is in use. *)
Definition SpaceRemaining (b : t) : Z := total_code_size b - code_used b.

(** Modelled from the spec: [BlockOfCode::ClearCache] is absent; a full
    flush resets the host code arena. *)
Definition ClearCache (b : t) : t := mk (total_code_size b) 0.

End BlockOfCode.

Module A32EmitA64.

Record FastDispatchEntry : Type := mkFastDispatchEntry {
  location_descriptor : Z;
  code_ptr : Z
}.

(** Modelled from the spec: [backend/A64/a32_emit_a64.h] is not among
    the sources.  The spec gives the code cache a forward map from
    location descriptors to block descriptors and a range index from
    guest address ranges to the descriptors covering them, together
    with a direct-mapped fast-dispatch table. *)
Record t : Type := mk {
  block_descriptors : gmap Z BlockDescriptor;
  block_ranges : list (IntervalSet.interval * Z);
  fast_dispatch_table : gmap Z FastDispatchEntry
}.

(** Modelled from the spec: [GetBasicBlock] of the emitter is absent; it
    is the lookup in the forward map. *)
Definition GetBasicBlock (e : t) (descriptor : Z) : option BlockDescriptor :=
  block_descriptors e !! descriptor.

(** Modelled from the spec: [A32EmitA64::ClearCache] is absent; a full
    flush clears the forward map, the range index and the fast-dispatch
    table. *)
Definition ClearCache (e : t) : t := mk ∅ [] ∅.

End A32EmitA64.

(** ** The facade and its implementation record

    [Jit] holds [is_executing]; [Jit::Impl] holds the rest.  The two are
    one record here, the back pointer [jit_interface] being the record
    itself. *)
Record Jit : Type := mkJit {
  is_executing : bool;
  jit_state : A32JitState;
  block_of_code : BlockOfCode.t;
  emitter : A32EmitA64.t;
  invalid_cache_generation : Z;             (* size_t *)
  invalid_cache_ranges : IntervalSet.t;
  invalidate_entire_cache : bool
}.

Definition set_is_executing (b : bool) (j : Jit) : Jit :=
  mkJit b (jit_state j) (block_of_code j) (emitter j)
    (invalid_cache_generation j) (invalid_cache_ranges j) (invalidate_entire_cache j).

Definition set_jit_state (s : A32JitState) (j : Jit) : Jit :=
  mkJit (is_executing j) s (block_of_code j) (emitter j)
    (invalid_cache_generation j) (invalid_cache_ranges j) (invalidate_entire_cache j).

Definition set_block_of_code (b : BlockOfCode.t) (j : Jit) : Jit :=
  mkJit (is_executing j) (jit_state j) b (emitter j)
    (invalid_cache_generation j) (invalid_cache_ranges j) (invalidate_entire_cache j).

Definition set_emitter (e : A32EmitA64.t) (j : Jit) : Jit :=
  mkJit (is_executing j) (jit_state j) (block_of_code j) e
    (invalid_cache_generation j) (invalid_cache_ranges j) (invalidate_entire_cache j).

Definition set_invalid_cache_generation (g : Z) (j : Jit) : Jit :=
  mkJit (is_executing j) (jit_state j) (block_of_code j) (emitter j)
    g (invalid_cache_ranges j) (invalidate_entire_cache j).

Definition set_invalid_cache_ranges (r : IntervalSet.t) (j : Jit) : Jit :=
  mkJit (is_executing j) (jit_state j) (block_of_code j) (emitter j)
    (invalid_cache_generation j) r (invalidate_entire_cache j).

Definition set_invalidate_entire_cache (b : bool) (j : Jit) : Jit :=
  mkJit (is_executing j) (jit_state j) (block_of_code j) (emitter j)
    (invalid_cache_generation j) (invalid_cache_ranges j) b.

(** [Context::Impl] *)
Record Context : Type := mkContext {
  ctx_jit_state : A32JitState;
  ctx_invalid_cache_generation : Z
}.

(** A failed [ASSERT] ends the call. *)
Inductive Error : Type := PreconditionViolated.

Inductive result (A : Type) : Type :=
| Ok (a : A)
| Err (e : Error).
Arguments Ok {A} a.
Arguments Err {A} e.

(** The collaborators of the facade whose code is outside
    [a32_interface.cpp]: the translator, the optimization passes, the host
    code emitter and the emitted code itself.  Emitted code runs the
    consumer's callbacks, which may call back into the facade, so running
    it acts on the whole record. *)
Class Collaborators : Type := {
  IRBlock : Type;
  Translate : Z -> IRBlock;
  A32GetSetElimination : IRBlock -> IRBlock;
  DeadCodeElimination : IRBlock -> IRBlock;
  A32ConstantMemoryReads : IRBlock -> IRBlock;
  ConstantPropagation : IRBlock -> IRBlock;
  A32MergeInterpretBlocksPass : IRBlock -> IRBlock;
  VerificationPass : IRBlock -> IRBlock;
  Emit : IRBlock -> A32EmitA64.t * BlockOfCode.t ->
         BlockDescriptor * (A32EmitA64.t * BlockOfCode.t);
  InvalidateCacheRanges : IntervalSet.t -> A32EmitA64.t * BlockOfCode.t ->
                          A32EmitA64.t * BlockOfCode.t;
  RunCode : Jit -> Jit;
  RunCodeFrom : Z -> Jit -> Jit
}.

Definition MINIMUM_REMAINING_CODESIZE : Z := 1 * 1024 * 1024.

Section Facade.
Context `{!A32JitStateOps} `{!Collaborators}.

(** [Jit::Impl::Execute] *)
Definition Execute (j : Jit) : Jit :=
  let new_rsb_ptr := Z.land (wrap32 (rsb_ptr (jit_state j) - 1)) RSBPtrMask in
  if GetUniqueHash (jit_state j)
       =? rsb_location_descriptors (jit_state j) !!! Z.to_nat new_rsb_ptr
  then
    let j := set_jit_state (set_rsb_ptr new_rsb_ptr (jit_state j)) j in
    RunCodeFrom (rsb_codeptrs (jit_state j) !!! Z.to_nat new_rsb_ptr) j
  else RunCode j.

(** [Jit::Impl::PerformCacheInvalidation] *)
Definition PerformCacheInvalidation (j : Jit) : Jit :=
  if invalidate_entire_cache j then
    let j := set_jit_state (ResetRSB (jit_state j)) j in
    let j := set_block_of_code (BlockOfCode.ClearCache (block_of_code j)) j in
    let j := set_emitter (A32EmitA64.ClearCache (emitter j)) j in
    let j := set_invalid_cache_ranges (IntervalSet.clear (invalid_cache_ranges j)) j in
    let j := set_invalidate_entire_cache false j in
    let j := set_invalid_cache_generation (wrap64 (invalid_cache_generation j + 1)) j in
    j
  else if IntervalSet.is_empty (invalid_cache_ranges j) then j
  else
    let j := set_jit_state (ResetRSB (jit_state j)) j in
    let eb := InvalidateCacheRanges (invalid_cache_ranges j) (emitter j, block_of_code j) in
    let j := set_block_of_code eb.2 (set_emitter eb.1 j) in
    let j := set_invalid_cache_ranges (IntervalSet.clear (invalid_cache_ranges j)) j in
    let j := set_invalid_cache_generation (wrap64 (invalid_cache_generation j + 1)) j in
    j.

(** [Jit::Impl::RequestCacheInvalidation] *)
Definition RequestCacheInvalidation (j : Jit) : Jit :=
  if is_executing j then
    set_jit_state (set_halt_requested true (jit_state j)) j
  else PerformCacheInvalidation j.

(** The translation and the pass pipeline of [Jit::Impl::GetBasicBlock]. *)
Definition translate_and_optimize (descriptor : Z) : IRBlock :=
  let ir_block := Translate descriptor in
  let ir_block := A32GetSetElimination ir_block in
  let ir_block := DeadCodeElimination ir_block in
  let ir_block := A32ConstantMemoryReads ir_block in
  let ir_block := ConstantPropagation ir_block in
  let ir_block := DeadCodeElimination ir_block in
  let ir_block := A32MergeInterpretBlocksPass ir_block in
  let ir_block := VerificationPass ir_block in
  ir_block.

(** [Jit::Impl::GetBasicBlock] *)
Definition GetBasicBlock (descriptor : Z) (j : Jit) : BlockDescriptor * Jit :=
  match A32EmitA64.GetBasicBlock (emitter j) descriptor with
  | Some block => (block, j)
  | None =>
      let j :=
        if BlockOfCode.SpaceRemaining (block_of_code j) <? MINIMUM_REMAINING_CODESIZE
        then PerformCacheInvalidation (set_invalidate_entire_cache true j)
        else j in
      let ir_block := translate_and_optimize descriptor in
      let r := Emit ir_block (emitter j, block_of_code j) in
      (r.1, set_block_of_code r.2.2 (set_emitter r.2.1 j))
  end.

(** The state in which [Jit::Run] calls [Execute]: [is_executing] has
    been set, then [halt_requested] cleared. *)
Definition Run_entry (j : Jit) : Jit :=
  let j := set_is_executing true j in
  let j := set_jit_state (set_halt_requested false (jit_state j)) j in
  j.

(** [Jit::Run] *)
Definition Run (j : Jit) : result Jit :=
  if is_executing j then Err PreconditionViolated
  else
    let j := set_is_executing true j in
    let j := set_jit_state (set_halt_requested false (jit_state j)) j in
    let j := Execute j in
    let j := PerformCacheInvalidation j in
    Ok (set_is_executing false j).

(** [Jit::ClearCache] *)
Definition ClearCache (j : Jit) : Jit :=
  RequestCacheInvalidation (set_invalidate_entire_cache true j).

(** The upper bound [static_cast<u32>(start_address + length - 1)],
    computed in [size_t]. *)
Definition range_last (start_address length : Z) : Z :=
  wrap32 (wrap64 (wrap64 (start_address + length) - 1)).

(** [Jit::InvalidateCacheRange] *)
Definition InvalidateCacheRange (start_address length : Z) (j : Jit) : Jit :=
  let j := set_invalid_cache_ranges
             (IntervalSet.add
                (IntervalSet.closed start_address (range_last start_address length))
                (invalid_cache_ranges j)) j in
  RequestCacheInvalidation j.

(** [Jit::Reset] *)
Definition Reset (j : Jit) : result Jit :=
  if is_executing j then Err PreconditionViolated
  else Ok (set_jit_state A32JitState_zero j).

(** [Jit::HaltExecution] *)
Definition HaltExecution (j : Jit) : Jit :=
  set_jit_state (set_halt_requested true (jit_state j)) j.

(** [Context::Context()] *)
Definition Context_new : Context :=
  mkContext (ResetRSB A32JitState_zero) 0.

(** [Jit::SaveContext(Context&)] returns the new context. *)
Definition SaveContext (j : Jit) (ctx : Context) : Context :=
  mkContext (TransferJitState (ctx_jit_state ctx) (jit_state j) false)
    (invalid_cache_generation j).

(** [Jit::SaveContext()] *)
Definition SaveContext_new (j : Jit) : Context := SaveContext j Context_new.

(** The local [reset_rsb] of [Jit::LoadContext]. *)
Definition LoadContext_reset_rsb (ctx : Context) (j : Jit) : bool :=
  negb (ctx_invalid_cache_generation ctx =? invalid_cache_generation j).

(** [Jit::LoadContext] *)
Definition LoadContext (ctx : Context) (j : Jit) : Jit :=
  let reset_rsb := LoadContext_reset_rsb ctx j in
  set_jit_state (TransferJitState (jit_state j) (ctx_jit_state ctx) reset_rsb) j.

(** [Jit::Disassemble]: the listing is built from the block that
    [GetBasicBlock] returns; the state is the one it leaves. *)
Definition Disassemble (descriptor : Z) (j : Jit) : BlockDescriptor * Jit :=
  GetBasicBlock descriptor j.

(** The state-changing operations of the facade.  [Regs()] and
    [ExtRegs()] hand out references; a write through them is an
    operation of its own. *)
Inductive FacadeOp : Type :=
| OpRun
| OpClearCache
| OpInvalidateCacheRange (start_address length : Z)
| OpReset
| OpHaltExecution
| OpWriteRegs (r : list Z)
| OpWriteExtRegs (r : list Z)
| OpSetCpsr (value : Z)
| OpSetFpscr (value : Z)
| OpSaveContext (ctx : Context)
| OpLoadContext (ctx : Context)
| OpDisassemble (descriptor : Z).

Definition facade_step (op : FacadeOp) (j : Jit) : result Jit :=
  match op with
  | OpRun => Run j
  | OpClearCache => Ok (ClearCache j)
  | OpInvalidateCacheRange a l => Ok (InvalidateCacheRange a l j)
  | OpReset => Reset j
  | OpHaltExecution => Ok (HaltExecution j)
  | OpWriteRegs r => Ok (set_jit_state (set_Reg r (jit_state j)) j)
  | OpWriteExtRegs r => Ok (set_jit_state (set_ExtReg r (jit_state j)) j)
  | OpSetCpsr v => Ok (set_jit_state (SetCpsr v (jit_state j)) j)
  | OpSetFpscr v => Ok (set_jit_state (SetFpscr v (jit_state j)) j)
  | OpSaveContext _ => Ok j
  | OpLoadContext ctx => Ok (LoadContext ctx j)
  | OpDisassemble d => Ok (Disassemble d j).2
  end.

(** The queueing of [InvalidateCacheRange] in the words of the spec, for
    one call: afterwards an address is pending iff it was pending before
    or lies in [[start, start + length - 1]]. *)
Definition queues_closed_interval (start_address length : Z) (j : Jit) : Prop :=
  forall x, is_u32 x ->
    IntervalSet.contains
      (invalid_cache_ranges (InvalidateCacheRange start_address length j)) x
    = IntervalSet.contains (invalid_cache_ranges j) x
      || IntervalSet.within (start_address, start_address + length - 1) x.

(** The halt-flag invariant in the words of the spec: a step of the
    facade that takes [halt_requested] from set to clear is [Run]. *)
Definition only_Run_clears_halt : Prop :=
  forall op j j',
    facade_step op j = Ok j' ->
    halt_requested (jit_state j) = true ->
    halt_requested (jit_state j') = false ->
    op = OpRun.

End Facade.

(** ** The VFP2 decoder *)
Module Decoder.

(** [Decoder::Matcher<Visitor, u32>]: a name and the pair of mask and
    expected bits; the handler member is left out. *)
Record Matcher : Type := mkMatcher {
  name : string;
  mask : Z;
  expect : Z
}.

(** Modelled from the spec: [Matcher::Matches] is in the absent
    [frontend/decoder/matcher.h]; an instruction matches iff
    [x & mask == bits]. *)
Definition Matches (m : Matcher) (instruction : Z) : bool :=
  Z.land instruction (mask m) =? expect m.

(** Modelled from the spec: the bitstring compiler of the absent
    [frontend/decoder/decoder_detail.h]; [0] and [1] are fixed bits,
    every other character belongs to a field, bit 31 is leftmost. *)
Fixpoint GetMaskAndExpect_from (bitstring : string) (acc : Z * Z) : Z * Z :=
  match bitstring with
  | EmptyString => acc
  | String c rest =>
      let fixed := if (Ascii.eqb c "0"%char || Ascii.eqb c "1"%char)%bool then 1 else 0 in
      let one := if Ascii.eqb c "1"%char then 1 else 0 in
      GetMaskAndExpect_from rest (2 * acc.1 + fixed, 2 * acc.2 + one)
  end.

Definition GetMaskAndExpect (bitstring : string) : Z * Z :=
  GetMaskAndExpect_from bitstring (0, 0).

Definition GetMatcher (nm bitstring : string) : Matcher :=
  let me := GetMaskAndExpect bitstring in
  mkMatcher nm me.1 me.2.

End Decoder.

(** [DecodeVFP2].  The table comes from [vfp2_a64.inc] or [vfp2.inc],
    which are not among the sources; it is an argument. *)
Definition DecodeVFP2 (table : list Decoder.Matcher) (instruction : Z)
  : option Decoder.Matcher :=
  if Z.land instruction 0xF0000000 =? 0xF0000000 then None
  else List.find (fun matcher => Decoder.Matches matcher instruction) table.

(** ** Concrete instances

    One implementation of the parts left open above, and a few states,
    on which the model is evaluated. *)

Definition sample_ops : A32JitStateOps := {|
  rsb_after_reset s :=
    mkRSB (rsb_ptr s) (replicate 16 (2 ^ 64 - 1)) (replicate 16 0);
  cpsr_after_set value s :=
    mkCPSR (CPSR_ge s) (CPSR_et s) (CPSR_q s)
      (Z.land value 0xF0000000) (Z.land value 0x0FFFFFFF);
  fpscr_after_set value s :=
    mkFPSCR (guest_FPCR s) (guest_FPSR s) (FPSCR_IDC s) (FPSCR_UFC s)
      (Z.land value 0x07F70000) (Z.land value 0xF0000000);
  GetUniqueHash s := nth 15 (Reg s) 0;
  Cpsr s := Z.lor (CPSR_nzcv s) (CPSR_jaifm s);
  Fpscr s := Z.lor (FPSCR_nzcv s) (FPSCR_mode s)
|}.

(** An emitter that gives every block 64 host bytes at the bump pointer,
    and emitted code that returns at once. *)
Definition sample_collaborators : Collaborators := {|
  IRBlock := Z;
  Translate descriptor := descriptor;
  A32GetSetElimination ir := ir;
  DeadCodeElimination ir := ir;
  A32ConstantMemoryReads ir := ir;
  ConstantPropagation ir := ir;
  A32MergeInterpretBlocksPass ir := ir;
  VerificationPass ir := ir;
  Emit ir eb :=
    let block := mkBlockDescriptor (BlockOfCode.code_used eb.2) 64 in
    (block,
     (A32EmitA64.mk (<[ir := block]> (A32EmitA64.block_descriptors eb.1))
        (A32EmitA64.block_ranges eb.1) (A32EmitA64.fast_dispatch_table eb.1),
      BlockOfCode.mk (BlockOfCode.total_code_size eb.2) (BlockOfCode.code_used eb.2 + 64)));
  InvalidateCacheRanges ranges eb :=
    (A32EmitA64.mk ∅ [] ∅, eb.2);
  RunCode j := j;
  RunCodeFrom ptr j := j
|}.

(** A guest state with one return recorded in the RSB: slot 0 holds a
    location hash and the host address of its block. *)
Definition sample_jit_state : A32JitState :=
  mkA32JitState 0 0 0 0 0x1D0
    (replicate 15 7 ++ [0x100]) (replicate 64 0)
    0 0 0 0 0 0
    1 (0x100 :: replicate 15 (2 ^ 64 - 1)) (0x7F0000001000 :: replicate 15 0)
    false.

(** A 128 MiB arena with 4 KiB in use and an empty cache. *)
Definition sample_jit : Jit :=
  mkJit false sample_jit_state
    (BlockOfCode.mk (128 * 1024 * 1024) 4096)
    (A32EmitA64.mk ∅ [] ∅)
    3 IntervalSet.empty false.

(** The same consumer inside [Run]. *)
Definition sample_running : Jit := set_is_executing true sample_jit.

(** The arena of [sample_jit] with 4 KiB left. *)
Definition sample_nearly_full : Jit :=
  set_block_of_code (BlockOfCode.mk (128 * 1024 * 1024) (128 * 1024 * 1024 - 4096))
    sample_jit.

(** A guest state as a context holds it: other registers, and an RSB
    whose slot 3 records a return. *)
Definition sample_saved_state : A32JitState :=
  mkA32JitState 0 0 0 0x20000000 0x1D0
    (replicate 15 9 ++ [0x200]) (replicate 64 1)
    0 0 0 0 0 0
    4 (replicate 3 (2 ^ 64 - 1) ++ [0x200] ++ replicate 12 (2 ^ 64 - 1))
      (replicate 3 0 ++ [0x7F0000002000] ++ replicate 12 0)
    false.

(** Three VFP data-processing patterns, most specific first. *)
Definition sample_table : list Decoder.Matcher :=
  [ Decoder.GetMatcher "VADD" "cccc11100D11nnnndddd101zN0M0mmmm";
    Decoder.GetMatcher "VSUB" "cccc11100D11nnnndddd101zN1M0mmmm";
    Decoder.GetMatcher "VMUL" "cccc11100D10nnnndddd101zN0M0mmmm" ].

(** ** Sequences of facade operations *)
Section FacadeSequences.
Context `{!A32JitStateOps} `{!Collaborators}.

(** A consumer's calls one after the other; the first failed assertion
    ends the sequence. *)
Fixpoint facade_steps (ops : list FacadeOp) (j : Jit) : result Jit :=
  match ops with
  | [] => Ok j
  | op :: rest =>
      match facade_step op j with
      | Ok j' => facade_steps rest j'
      | Err e => Err e
      end
  end.

(** Nothing runs and no invalidation waits. *)
Definition idle (j : Jit) : Prop :=
  is_executing j = false
  /\ invalid_cache_ranges j = IntervalSet.empty
  /\ invalidate_entire_cache j = false.

End FacadeSequences.

(** ** The fast-dispatch table of [backend/x64/a32_emit_x64.h] *)
Module A32EmitX64.

(** [static_assert(sizeof(FastDispatchEntry) == 0x10)] *)
Definition sizeof_FastDispatchEntry : Z := 0x10.
Definition fast_dispatch_table_mask : Z := 0xFFFF0.
Definition fast_dispatch_table_size : Z := 0x10000.

End A32EmitX64.

(** ** The instruction generator of [tests/A32/fuzz_arm.cpp] *)
Module InstructionGenerator.

Record t : Type := mk {
  bits : Z;
  mask : Z;
  is_valid : Z -> bool
}.

(** The loop of the constructor, from position [i] on: [bit] is
    [1u << (31 - i)]. *)
Fixpoint scan (format : string) (i : Z) (bits mask : Z) : Z * Z :=
  match format with
  | EmptyString => (bits, mask)
  | String c rest =>
      let bit := Z.shiftl 1 (31 - i) in
      if Ascii.eqb c "0"%char then scan rest (i + 1) bits (Z.lor mask bit)
      else if Ascii.eqb c "1"%char then scan rest (i + 1) (Z.lor bits bit) (Z.lor mask bit)
      else scan rest (i + 1) bits mask
  end.

(** The constructor; [REQUIRE(strlen(format) == 32)] fails for any other
    length. *)
Definition new (format : string) (is_valid : Z -> bool) : option t :=
  if Z.of_nat (String.length format) =? 32 then
    let bm := scan format 0 0 0 in
    Some (mk bm.1 bm.2 is_valid)
  else None.

(** One pass of the loop body of [Generate] for one random word. *)
Definition candidate (g : t) (condition : bool) (random : Z) : Z :=
  let random :=
    if condition then Z.land random (wrap32 (Z.lnot (Z.shiftl 0xF 28)))
    else random in
  Z.lor (bits g) (Z.land random (wrap32 (Z.lnot (mask g)))).

(** The [do ... while (!is_valid(inst))] loop over the words that
    [RandInt<u32>] hands out. *)
Fixpoint draw (g : t) (condition : bool) (randoms : list Z) : option Z :=
  match randoms with
  | [] => None
  | random :: rest =>
      let inst := candidate g condition random in
      if is_valid g inst then Some inst else draw g condition rest
  end.

(** [Generate(condition)]; [chance] is the value of [RandInt(1, 25)] and
    [cond] that of [RandInt(0x0, 0xD)]. *)
Definition Generate (g : t) (condition : bool) (randoms : list Z) (chance cond : Z)
  : option Z :=
  match draw g condition randoms with
  | None => None
  | Some inst =>
      Some (if condition then
              if chance =? 1 then Z.lor inst (Z.shiftl cond 28)
              else Z.lor inst (Z.shiftl 0xE 28)
            else inst)
  end.

Definition is_fixed (c : ascii) : bool := Ascii.eqb c "0"%char || Ascii.eqb c "1"%char.
Definition is_one (c : ascii) : bool := Ascii.eqb c "1"%char.

End InstructionGenerator.

(** [CmpIgnoreSignedZeros] of [tests/A32/fuzz_arm.cpp], on two arrays of
    64 words. *)
Definition CmpIgnoreSignedZeros (a b : list Z) : bool :=
  fold_left
    (fun res i =>
       res && (if (Z.land (a !!! i) 0x7FFFFFFF =? 0) && (Z.land (b !!! i) 0x7FFFFFFF =? 0)
               then true
               else a !!! i =? b !!! i))
    (seq 0 64) true.

(** The test one position of [CmpIgnoreSignedZeros] makes: a word that
    differs from zero in the sign bit at most counts as zero. *)
Definition signed_zero (x : Z) : bool := Z.land x 0x7FFFFFFF =? 0.

Definition same_ignoring_signed_zero (x y : Z) : bool :=
  if signed_zero x && signed_zero y then true else x =? y.

(** ** Element selection in
    [frontend/A64/translate/impl/simd_scalar_x_indexed_element.cpp]

    An [Imm<N>] is its value, a [Z] below [2 ^ N].  [concatenate] is in
    the absent [frontend/imm.h]; its first argument holds the most
    significant bits. *)
Module SimdScalarIndexedElement.

Definition concatenate (hi lo lo_bits : Z) : Z := Z.lor (Z.shiftl hi lo_bits) lo.

(** [Combine]: the pair of element index and register number. *)
Definition Combine (size H L M Vmlo : Z) : Z * Z :=
  if size =? 1 then (concatenate H (concatenate L M 1) 2, Vmlo)
  else (concatenate H L 1, concatenate M Vmlo 4).

(** What a visitor function settles before it emits IR. *)
Inductive selection : Type :=
| ReservedValue
| Element (esize datasize index Vm : Z).

(** The guard and the constants of [MultiplyByElement]: [esize],
    [idxdsize], [index] and [Vm]. *)
Definition MultiplyByElement_select (sz : bool) (L M Vmlo H : Z) : selection :=
  if sz && (L =? 1) then ReservedValue
  else
    let idxdsize := if H =? 1 then 128 else 64 in
    let index := if sz then H else concatenate H L 1 in
    let Vm := concatenate M Vmlo 4 in
    let esize := if sz then 64 else 32 in
    Element esize idxdsize index Vm.

(** The guard and the constants shared by [SQDMULH_elt_1],
    [SQRDMULH_elt_1] and [SQDMULL_elt_1]; the indexed vector is read at
    128 bits. *)
Definition SQDMULH_elt_1_select (size L M Vmlo H : Z) : selection :=
  if (size =? 0) || (size =? 3) then ReservedValue
  else
    let esize := Z.shiftl 8 size in
    let iv := Combine size H L M Vmlo in
    Element esize 128 iv.1 iv.2.

End SimdScalarIndexedElement.

(** A generator for the fuzzer's VMOV pattern that accepts every word. *)
Definition sample_format : string := "cccc11100000ddddtttt1011D0010000".

(** ** Auxiliary facts *)

Lemma wrap32_small x : 0 <= x < 2 ^ 32 -> wrap32 x = x.
Proof. intros Hx. unfold wrap32. apply Z.mod_small. exact Hx. Qed.

Lemma wrap64_small x : 0 <= x < 2 ^ 64 -> wrap64 x = x.
Proof. intros Hx. unfold wrap64. apply Z.mod_small. exact Hx. Qed.

Module IntervalSetFacts.
Import IntervalSet.

Lemma within_hull lo hi a b x :
  lo <= hi -> a <= b -> ~ hi + 1 < a -> ~ b + 1 < lo ->
  within (Z.min lo a, Z.max hi b) x = within (lo, hi) x || within (a, b) x.
Proof.
  intros Hlh Hab Hn1 Hn2. unfold within. simpl.
  apply eq_true_iff_eq.
  rewrite orb_true_iff, !andb_true_iff, !Z.leb_le. lia.
Qed.

Lemma contains_join s : forall lo hi x,
  wf s -> lo <= hi ->
  contains (join lo hi s) x = within (lo, hi) x || contains s x.
Proof.
  induction s as [|[a b] rest IH]; intros lo hi x Hwf Hlh.
  - reflexivity.
  - inversion Hwf as [|? ? Hab Hrest]; subst. simpl in Hab. simpl join.
    destruct (Z.ltb_spec (hi + 1) a) as [H1|H1].
    + reflexivity.
    + destruct (Z.ltb_spec (b + 1) lo) as [H2|H2].
      * change (contains ((a, b) :: join lo hi rest) x)
          with (within (a, b) x || contains (join lo hi rest) x).
        rewrite IH by assumption.
        change (contains ((a, b) :: rest) x) with (within (a, b) x || contains rest x).
        rewrite !orb_assoc. f_equal. apply orb_comm.
      * rewrite IH by (try assumption; lia).
        rewrite within_hull by lia.
        change (contains ((a, b) :: rest) x) with (within (a, b) x || contains rest x).
        rewrite orb_assoc. reflexivity.
Qed.

Lemma contains_add iv s x :
  wf s ->
  contains (add iv s) x = within iv x || contains s x.
Proof.
  intros Hwf. destruct iv as [lo hi]. unfold add, interval_is_empty. simpl.
  destruct (Z.ltb_spec hi lo) as [H|H].
  - replace (within (lo, hi) x) with false; [reflexivity|].
    symmetry. unfold within. simpl. apply andb_false_iff.
    rewrite !Z.leb_gt. lia.
  - apply contains_join; assumption.
Qed.

Lemma wf_join s : forall lo hi, wf s -> lo <= hi -> wf (join lo hi s).
Proof.
  induction s as [|[a b] rest IH]; intros lo hi Hwf Hlh.
  - constructor; [exact Hlh | constructor].
  - pose proof Hwf as Hwf0.
    inversion Hwf as [|? ? Hab Hrest]; subst. simpl in Hab. simpl join.
    destruct (Z.ltb_spec (hi + 1) a); [constructor; assumption|].
    destruct (Z.ltb_spec (b + 1) lo).
    + constructor; [exact Hab | apply IH; assumption].
    + apply IH; [assumption | lia].
Qed.

Lemma wf_add iv s : wf s -> wf (add iv s).
Proof.
  intros Hwf. unfold add, interval_is_empty.
  destruct (Z.ltb_spec iv.2 iv.1); [assumption|].
  apply wf_join; assumption.
Qed.

End IntervalSetFacts.

(** ** Saved contexts *)
Section ContextProperties.
Context `{!A32JitStateOps}.

Lemma TransferJitState_copy dest src :
  TransferJitState dest src false = set_halt_requested (halt_requested dest) src.
Proof. reflexivity. Qed.

Lemma TransferJitState_reset dest src :
  TransferJitState dest src true = ResetRSB (transfer_guest_fields dest src).
Proof. reflexivity. Qed.

Lemma TransferJitState_halt_requested dest src reset_rsb :
  halt_requested (TransferJitState dest src reset_rsb) = halt_requested dest.
Proof. destruct reset_rsb; reflexivity. Qed.

(** C1, amended: [SaveContext] stores the whole live guest-state block
    except [halt_requested] (which keeps the value the context had),
    together with the cache generation at save time.  The return stack
    buffer is stored as it is, its host code pointers included. *)
Theorem SaveContext_snapshot (j : Jit) (ctx : Context) :
  SaveContext j ctx
  = mkContext (set_halt_requested (halt_requested (ctx_jit_state ctx)) (jit_state j))
      (invalid_cache_generation j)
  /\ ctx_invalid_cache_generation (SaveContext j ctx) = invalid_cache_generation j
  /\ rsb_ptr (ctx_jit_state (SaveContext j ctx)) = rsb_ptr (jit_state j)
  /\ rsb_location_descriptors (ctx_jit_state (SaveContext j ctx))
     = rsb_location_descriptors (jit_state j)
  /\ rsb_codeptrs (ctx_jit_state (SaveContext j ctx)) = rsb_codeptrs (jit_state j).
Proof.
  unfold SaveContext. rewrite TransferJitState_copy. simpl. repeat split.
Qed.

(** C2: loading the context that was just saved leaves the whole live
    state as it was: registers, extension registers, the CPSR and FPSCR
    members and the RSB.  This holds for a context saved into any
    existing context object and for one saved into a fresh one. *)
Theorem LoadContext_SaveContext (j : Jit) (ctx : Context) :
  LoadContext (SaveContext j ctx) j = j
  /\ LoadContext (SaveContext_new j) j = j.
Proof.
  assert (Hgen : forall c, LoadContext (SaveContext j c) j = j).
  { intros c. unfold LoadContext, LoadContext_reset_rsb, SaveContext.
    cbn [ctx_invalid_cache_generation ctx_jit_state].
    rewrite Z.eqb_refl. cbn [negb].
    rewrite !TransferJitState_copy.
    destruct j as [ex js boc em gen rs fl]. destruct js. reflexivity. }
  split; [apply Hgen | apply (Hgen Context_new)].
Qed.

(** C3: [LoadContext] takes the reset branch exactly when the stored
    generation differs from the current one.  In that case the live
    state is the result of [ResetRSB] on the state that received the
    guest fields of the context; otherwise the pointer, the location
    descriptors and the code pointers of the context's RSB are copied
    through unchanged. *)
Theorem LoadContext_rsb (ctx : Context) (j : Jit) :
  (LoadContext_reset_rsb ctx j = true
     <-> ctx_invalid_cache_generation ctx <> invalid_cache_generation j)
  /\ (ctx_invalid_cache_generation ctx <> invalid_cache_generation j ->
        jit_state (LoadContext ctx j)
        = ResetRSB (transfer_guest_fields (jit_state j) (ctx_jit_state ctx)))
  /\ (ctx_invalid_cache_generation ctx = invalid_cache_generation j ->
        rsb_ptr (jit_state (LoadContext ctx j)) = rsb_ptr (ctx_jit_state ctx)
        /\ rsb_location_descriptors (jit_state (LoadContext ctx j))
           = rsb_location_descriptors (ctx_jit_state ctx)
        /\ rsb_codeptrs (jit_state (LoadContext ctx j))
           = rsb_codeptrs (ctx_jit_state ctx)
        /\ jit_state (LoadContext ctx j)
           = set_halt_requested (halt_requested (jit_state j)) (ctx_jit_state ctx)).
Proof.
  unfold LoadContext, LoadContext_reset_rsb.
  destruct (Z.eqb_spec (ctx_invalid_cache_generation ctx) (invalid_cache_generation j))
    as [Heq|Hne]; cbn [negb].
  - split; [|split].
    + split; [discriminate | intros Hn; contradiction].
    + intros Hn; contradiction.
    + intros _. rewrite TransferJitState_copy. repeat split.
  - split; [|split].
    + split; [intros _; exact Hne | reflexivity].
    + intros _. reflexivity.
    + intros He; contradiction.
Qed.

End ContextProperties.

(** ** Cache invalidation *)
Section InvalidationProperties.
Context `{!A32JitStateOps} `{!Collaborators}.

Lemma ResetRSB_halt_requested s : halt_requested (ResetRSB s) = halt_requested s.
Proof. reflexivity. Qed.

Lemma PerformCacheInvalidation_full j :
  invalidate_entire_cache j = true ->
  PerformCacheInvalidation j
  = mkJit (is_executing j) (ResetRSB (jit_state j))
      (BlockOfCode.ClearCache (block_of_code j))
      (A32EmitA64.ClearCache (emitter j))
      (wrap64 (invalid_cache_generation j + 1)) IntervalSet.empty false.
Proof. intros Hf. unfold PerformCacheInvalidation. rewrite Hf. reflexivity. Qed.

Lemma PerformCacheInvalidation_partial j :
  invalidate_entire_cache j = false ->
  IntervalSet.is_empty (invalid_cache_ranges j) = false ->
  PerformCacheInvalidation j
  = mkJit (is_executing j) (ResetRSB (jit_state j))
      (InvalidateCacheRanges (invalid_cache_ranges j) (emitter j, block_of_code j)).2
      (InvalidateCacheRanges (invalid_cache_ranges j) (emitter j, block_of_code j)).1
      (wrap64 (invalid_cache_generation j + 1)) IntervalSet.empty false.
Proof.
  intros Hf He. unfold PerformCacheInvalidation. rewrite Hf, He.
  destruct j; simpl in *; subst; reflexivity.
Qed.

Lemma PerformCacheInvalidation_idle j :
  invalidate_entire_cache j = false ->
  IntervalSet.is_empty (invalid_cache_ranges j) = true ->
  PerformCacheInvalidation j = j.
Proof. intros Hf He. unfold PerformCacheInvalidation. rewrite Hf, He. reflexivity. Qed.

Lemma PerformCacheInvalidation_halt_requested j :
  halt_requested (jit_state (PerformCacheInvalidation j)) = halt_requested (jit_state j).
Proof.
  unfold PerformCacheInvalidation.
  destruct (invalidate_entire_cache j); [reflexivity|].
  destruct (IntervalSet.is_empty (invalid_cache_ranges j)); reflexivity.
Qed.

Lemma PerformCacheInvalidation_is_executing j :
  is_executing (PerformCacheInvalidation j) = is_executing j.
Proof.
  unfold PerformCacheInvalidation.
  destruct (invalidate_entire_cache j); [reflexivity|].
  destruct (IntervalSet.is_empty (invalid_cache_ranges j)); reflexivity.
Qed.

(** Nothing is pending once [PerformCacheInvalidation] has returned. *)
Lemma PerformCacheInvalidation_nothing_pending j :
  invalid_cache_ranges (PerformCacheInvalidation j) = IntervalSet.empty
  /\ invalidate_entire_cache (PerformCacheInvalidation j) = false.
Proof.
  unfold PerformCacheInvalidation.
  destruct (invalidate_entire_cache j) eqn:Hf; [split; reflexivity|].
  destruct (invalid_cache_ranges j) eqn:Hr; cbn.
  - rewrite Hr, Hf. split; reflexivity.
  - rewrite Hf. split; reflexivity.
Qed.

(** C6: servicing a full-flush request resets the RSB of the live
    guest-state block and the host code arena, clears the forward map,
    the range index and the fast-dispatch table, empties the pending
    range set and clears the full-flush flag.  Whenever an invalidation
    is serviced, full or partial, the generation counter goes up by
    one ([size_t] increment). *)
Theorem PerformCacheInvalidation_services (j : Jit) :
  (invalidate_entire_cache j = true ->
     jit_state (PerformCacheInvalidation j) = ResetRSB (jit_state j)
     /\ block_of_code (PerformCacheInvalidation j)
        = BlockOfCode.ClearCache (block_of_code j)
     /\ BlockOfCode.code_used (block_of_code (PerformCacheInvalidation j)) = 0
     /\ A32EmitA64.block_descriptors (emitter (PerformCacheInvalidation j)) = ∅
     /\ A32EmitA64.block_ranges (emitter (PerformCacheInvalidation j)) = []
     /\ A32EmitA64.fast_dispatch_table (emitter (PerformCacheInvalidation j)) = ∅
     /\ invalid_cache_ranges (PerformCacheInvalidation j) = IntervalSet.empty
     /\ invalidate_entire_cache (PerformCacheInvalidation j) = false)
  /\ (invalidate_entire_cache j = true
      \/ IntervalSet.is_empty (invalid_cache_ranges j) = false ->
        invalid_cache_generation (PerformCacheInvalidation j)
        = wrap64 (invalid_cache_generation j + 1)
        /\ (0 <= invalid_cache_generation j < 2 ^ 64 - 1 ->
            invalid_cache_generation (PerformCacheInvalidation j)
            = invalid_cache_generation j + 1)).
Proof.
  split.
  - intros Hf. rewrite (PerformCacheInvalidation_full j Hf). cbn. repeat split.
  - intros Hserv.
    assert (Hg : invalid_cache_generation (PerformCacheInvalidation j)
                 = wrap64 (invalid_cache_generation j + 1)).
    { destruct (invalidate_entire_cache j) eqn:Hf.
      - rewrite (PerformCacheInvalidation_full j Hf). reflexivity.
      - destruct Hserv as [Hc|He]; [discriminate|].
        rewrite (PerformCacheInvalidation_partial j Hf He). reflexivity. }
    split; [exact Hg|].
    intros Hrange. rewrite Hg. apply wrap64_small. lia.
Qed.

(** C10: with no full flush requested and no range pending,
    [PerformCacheInvalidation] returns the state it was given:
    generation, RSB, code cache and all the rest are unchanged.  [Run]
    calls it on every return, so in that case [Run] hands back the
    state execution left, with [is_executing] cleared. *)
Theorem PerformCacheInvalidation_nothing_to_do (j : Jit) :
  invalidate_entire_cache j = false ->
  IntervalSet.is_empty (invalid_cache_ranges j) = true ->
  PerformCacheInvalidation j = j
  /\ (forall j0,
        is_executing j0 = false ->
        Execute (Run_entry j0) = j ->
        Run j0 = Ok (set_is_executing false j)).
Proof.
  intros Hf He.
  pose proof (PerformCacheInvalidation_idle j Hf He) as Hidle.
  split; [exact Hidle|].
  intros j0 Hex Hrun. unfold Run. rewrite Hex.
  change (Ok (set_is_executing false (PerformCacheInvalidation (Execute (Run_entry j0))))
          = Ok (set_is_executing false j)).
  rewrite Hrun, Hidle. reflexivity.
Qed.

End InvalidationProperties.

(** ** The facade *)
Section FacadeProperties.
Context `{!A32JitStateOps} `{!Collaborators}.

Lemma range_last_exact start_address length :
  1 <= start_address + length <= 2 ^ 32 ->
  range_last start_address length = start_address + length - 1.
Proof.
  intros Hr. unfold range_last.
  rewrite (wrap64_small (start_address + length)) by lia.
  rewrite wrap64_small by lia.
  apply wrap32_small. lia.
Qed.

(** C5, amended: when the last address [start + length - 1] is itself a
    [u32] address, [InvalidateCacheRange] adds exactly the closed
    interval [[start, start + length - 1]] to the pending set.  Then,
    inside [Run], it sets [halt_requested] and changes nothing else
    (code cache, arena and generation are as before, the interval stays
    pending); outside [Run] the invalidation is performed at once. *)
Theorem InvalidateCacheRange_queues (start_address length : Z) (j : Jit) :
  is_u32 start_address -> is_size_t length ->
  1 <= start_address + length <= 2 ^ 32 ->
  IntervalSet.wf (invalid_cache_ranges j) ->
  let queued :=
    IntervalSet.add
      (IntervalSet.closed start_address (range_last start_address length))
      (invalid_cache_ranges j) in
  (forall x,
      IntervalSet.contains queued x
      = IntervalSet.contains (invalid_cache_ranges j) x
        || IntervalSet.within (start_address, start_address + length - 1) x)
  /\ (is_executing j = true ->
        InvalidateCacheRange start_address length j
        = set_jit_state (set_halt_requested true (jit_state j))
            (set_invalid_cache_ranges queued j)
        /\ halt_requested (jit_state (InvalidateCacheRange start_address length j)) = true
        /\ emitter (InvalidateCacheRange start_address length j) = emitter j
        /\ block_of_code (InvalidateCacheRange start_address length j) = block_of_code j
        /\ invalid_cache_generation (InvalidateCacheRange start_address length j)
           = invalid_cache_generation j
        /\ invalid_cache_ranges (InvalidateCacheRange start_address length j) = queued)
  /\ (is_executing j = false ->
        InvalidateCacheRange start_address length j
        = PerformCacheInvalidation (set_invalid_cache_ranges queued j)
        /\ invalid_cache_ranges (InvalidateCacheRange start_address length j)
           = IntervalSet.empty).
Proof.
  intros Hs Hl Hlast Hwf queued. split; [|split].
  - intros x. subst queued.
    rewrite IntervalSetFacts.contains_add by exact Hwf.
    unfold IntervalSet.closed. rewrite range_last_exact by exact Hlast.
    apply orb_comm.
  - intros Hex.
    assert (Heq : InvalidateCacheRange start_address length j
                  = set_jit_state (set_halt_requested true (jit_state j))
                      (set_invalid_cache_ranges queued j)).
    { unfold InvalidateCacheRange, RequestCacheInvalidation. cbn. rewrite Hex.
      reflexivity. }
    rewrite Heq. repeat split.
  - intros Hex.
    assert (Heq : InvalidateCacheRange start_address length j
                  = PerformCacheInvalidation (set_invalid_cache_ranges queued j)).
    { unfold InvalidateCacheRange, RequestCacheInvalidation. cbn. rewrite Hex.
      reflexivity. }
    split; [exact Heq|]. rewrite Heq.
    apply PerformCacheInvalidation_nothing_pending.
Qed.

(** C7: on a miss in the forward map with less than 1 MiB left in the
    arena, [GetBasicBlock] performs a full flush (empty forward map,
    arena reset, RSB reset, generation stepped, nothing left pending)
    and then translates and emits into the flushed cache.  The call
    returns the emitted block: the condition is not an error. *)
Theorem GetBasicBlock_low_space (descriptor : Z) (j : Jit) :
  A32EmitA64.GetBasicBlock (emitter j) descriptor = None ->
  BlockOfCode.SpaceRemaining (block_of_code j) < 1024 * 1024 ->
  let flushed := PerformCacheInvalidation (set_invalidate_entire_cache true j) in
  let emitted :=
    Emit (translate_and_optimize descriptor) (emitter flushed, block_of_code flushed) in
  GetBasicBlock descriptor j
  = (emitted.1, set_block_of_code emitted.2.2 (set_emitter emitted.2.1 flushed))
  /\ A32EmitA64.block_descriptors (emitter flushed) = ∅
  /\ A32EmitA64.block_ranges (emitter flushed) = []
  /\ A32EmitA64.fast_dispatch_table (emitter flushed) = ∅
  /\ BlockOfCode.code_used (block_of_code flushed) = 0
  /\ jit_state flushed = ResetRSB (jit_state j)
  /\ invalid_cache_generation flushed = wrap64 (invalid_cache_generation j + 1)
  /\ invalid_cache_ranges flushed = IntervalSet.empty
  /\ invalidate_entire_cache flushed = false.
Proof.
  intros Hmiss Hspace flushed emitted. split.
  - unfold GetBasicBlock. rewrite Hmiss.
    assert (Hlt : (BlockOfCode.SpaceRemaining (block_of_code j)
                   <? MINIMUM_REMAINING_CODESIZE) = true).
    { apply Z.ltb_lt. unfold MINIMUM_REMAINING_CODESIZE. lia. }
    rewrite Hlt. reflexivity.
  - subst flushed.
    rewrite (PerformCacheInvalidation_full (set_invalidate_entire_cache true j) eq_refl).
    cbn. repeat split.
Qed.

(** C4: a call of [Run] while [is_executing] fails with
    [PreconditionViolated]; a permitted call enters [Execute] with
    [is_executing] set and [halt_requested] cleared and everything else
    as it was, services the pending invalidation on the state execution
    left, and returns with nothing pending and [is_executing] cleared. *)
Theorem Run_contract (j : Jit) :
  (is_executing j = true -> Run j = Err PreconditionViolated)
  /\ (is_executing j = false ->
        is_executing (Run_entry j) = true
        /\ halt_requested (jit_state (Run_entry j)) = false
        /\ Run_entry j
           = set_jit_state (set_halt_requested false (jit_state j))
               (set_is_executing true j)
        /\ Run j
           = Ok (set_is_executing false
                   (PerformCacheInvalidation (Execute (Run_entry j))))
        /\ exists j',
             Run j = Ok j'
             /\ is_executing j' = false
             /\ invalid_cache_ranges j' = IntervalSet.empty
             /\ invalidate_entire_cache j' = false).
Proof.
  split; intros Hex; unfold Run; rewrite Hex; [reflexivity|].
  repeat split.
  eexists. split; [reflexivity|].
  pose proof (PerformCacheInvalidation_nothing_pending (Execute (Run_entry j)))
    as [Hr Hf].
  repeat split; cbn; assumption.
Qed.

Lemma GetBasicBlock_halt_requested descriptor j :
  halt_requested (jit_state (GetBasicBlock descriptor j).2)
  = halt_requested (jit_state j).
Proof.
  unfold GetBasicBlock.
  destruct (A32EmitA64.GetBasicBlock (emitter j) descriptor); [reflexivity|].
  destruct (BlockOfCode.SpaceRemaining (block_of_code j) <? MINIMUM_REMAINING_CODESIZE);
    [|reflexivity].
  change (halt_requested
            (jit_state (PerformCacheInvalidation (set_invalidate_entire_cache true j)))
          = halt_requested (jit_state j)).
  rewrite PerformCacheInvalidation_halt_requested. reflexivity.
Qed.

Lemma RequestCacheInvalidation_halt_requested j :
  halt_requested (jit_state (RequestCacheInvalidation j))
  = is_executing j || halt_requested (jit_state j).
Proof.
  unfold RequestCacheInvalidation. destruct (is_executing j); [reflexivity|].
  apply PerformCacheInvalidation_halt_requested.
Qed.

(** C8, amended: the flag goes from clear to set only in
    [HaltExecution], in a cache invalidation request ([ClearCache],
    [InvalidateCacheRange]) made while executing, or during the
    execution inside [Run].  [Run] itself never sets it: it enters
    execution with the flag clear and returns the value execution left.
    The flag goes from set to clear only in [Run] and in [Reset], which
    re-initializes the whole guest-state block; no other operation of
    the facade clears it. *)
Theorem halt_requested_transitions (op : FacadeOp) (j j' : Jit) :
  facade_step op j = Ok j' ->
  (halt_requested (jit_state j) = true ->
   halt_requested (jit_state j') = false ->
   op = OpRun \/ op = OpReset)
  /\ (halt_requested (jit_state j) = false ->
      halt_requested (jit_state j') = true ->
      op = OpHaltExecution
      \/ (is_executing j = true
          /\ (op = OpClearCache
              \/ exists start_address length,
                   op = OpInvalidateCacheRange start_address length))
      \/ (op = OpRun
          /\ halt_requested (jit_state (Execute (Run_entry j))) = true))
  /\ (op = OpRun ->
      is_executing (Run_entry j) = true
      /\ halt_requested (jit_state (Run_entry j)) = false
      /\ halt_requested (jit_state j')
         = halt_requested (jit_state (Execute (Run_entry j)))).
Proof.
  intros Hstep.
  assert (Hkeep : forall k, Ok k = Ok j' ->
            halt_requested (jit_state k) = halt_requested (jit_state j) ->
            op <> OpRun ->
            (halt_requested (jit_state j) = true ->
             halt_requested (jit_state j') = false -> op = OpRun \/ op = OpReset)
            /\ (halt_requested (jit_state j) = false ->
                halt_requested (jit_state j') = true ->
                op = OpHaltExecution
                \/ (is_executing j = true
                    /\ (op = OpClearCache
                        \/ exists start_address length,
                             op = OpInvalidateCacheRange start_address length))
                \/ (op = OpRun
                    /\ halt_requested (jit_state (Execute (Run_entry j))) = true))
            /\ (op = OpRun ->
                is_executing (Run_entry j) = true
                /\ halt_requested (jit_state (Run_entry j)) = false
                /\ halt_requested (jit_state j')
                   = halt_requested (jit_state (Execute (Run_entry j))))).
  { intros k Hk Hsame Hop. injection Hk as <-.
    split; [|split]; [intros H1 H2; congruence | intros H1 H2; congruence |].
    intros Hrun. contradiction. }
  destruct op; cbn [facade_step] in Hstep.
  - assert (Hret : halt_requested (jit_state j')
                   = halt_requested (jit_state (Execute (Run_entry j)))).
    { unfold Run in Hstep. destruct (is_executing j); [discriminate Hstep|].
      injection Hstep as <-.
      change (halt_requested
                (jit_state (PerformCacheInvalidation (Execute (Run_entry j))))
              = halt_requested (jit_state (Execute (Run_entry j)))).
      apply PerformCacheInvalidation_halt_requested. }
    split; [|split].
    + intros _ _. left. reflexivity.
    + intros _ Hset. right; right. split; [reflexivity|]. rewrite <- Hret. exact Hset.
    + intros _. split; [reflexivity|]. split; [reflexivity | exact Hret].
  - injection Hstep as <-. unfold ClearCache.
    rewrite RequestCacheInvalidation_halt_requested. cbn.
    destruct (is_executing j) eqn:Hex; cbn.
    + split; [|split]; [intros _ Hc; discriminate | | discriminate].
      intros _ _. right; left. split; [reflexivity | left; reflexivity].
    + split; [|split]; [intros H1 H2; congruence | intros H1 H2; congruence
                        | discriminate].
  - injection Hstep as <-. unfold InvalidateCacheRange.
    rewrite RequestCacheInvalidation_halt_requested. cbn.
    destruct (is_executing j) eqn:Hex; cbn.
    + split; [|split]; [intros _ Hc; discriminate | | discriminate].
      intros _ _. right; left. split; [reflexivity | right; eauto].
    + split; [|split]; [intros H1 H2; congruence | intros H1 H2; congruence
                        | discriminate].
  - split; [|split]; [intros _ _; right; reflexivity | | discriminate].
    intros _ Hset.
    unfold Reset in Hstep. destruct (is_executing j); [discriminate|].
    injection Hstep as <-. cbn in Hset. discriminate.
  - injection Hstep as <-. cbn.
    split; [|split]; [intros _ Hc; discriminate | | discriminate].
    intros _ _. left. reflexivity.
  - apply (Hkeep _ Hstep); [reflexivity | discriminate].
  - apply (Hkeep _ Hstep); [reflexivity | discriminate].
  - apply (Hkeep _ Hstep); [reflexivity | discriminate].
  - apply (Hkeep _ Hstep); [reflexivity | discriminate].
  - apply (Hkeep _ Hstep); [reflexivity | discriminate].
  - apply (Hkeep _ Hstep); [|discriminate]. unfold LoadContext. cbn.
    apply TransferJitState_halt_requested.
  - apply (Hkeep _ Hstep); [|discriminate]. apply GetBasicBlock_halt_requested.
Qed.

End FacadeProperties.

(** ** The decoder *)
Section DecoderProperties.

Lemma land_top_nibble x :
  is_u32 x -> Z.land x 0xF0000000 = Z.shiftr x 28 * 2 ^ 28.
Proof.
  intros [Hx0 Hx1].
  set (a := Z.land x 0xF0000000).
  assert (Hhi : Z.shiftr a 28 = Z.shiftr x 28).
  { subst a. rewrite Z.shiftr_land.
    change (Z.shiftr 0xF0000000 28) with (Z.ones 4).
    rewrite Z.land_ones by lia. rewrite Z.shiftr_div_pow2 by lia.
    apply Z.mod_small. split.
    - apply Z.div_pos; lia.
    - apply Z.div_lt_upper_bound; lia. }
  assert (Hlo : a mod 2 ^ 28 = 0).
  { subst a. rewrite <- Z.land_ones by lia. rewrite <- Z.land_assoc.
    change (Z.land 0xF0000000 (Z.ones 28)) with 0. apply Z.land_0_r. }
  rewrite <- Hhi. rewrite Z.shiftr_div_pow2 by lia.
  pose proof (Z.div_mod a (2 ^ 28)). lia.
Qed.

Lemma unconditional_test x :
  is_u32 x ->
  (Z.land x 0xF0000000 =? 0xF0000000) = (Z.shiftr x 28 =? 0xF).
Proof.
  intros Hx. rewrite (land_top_nibble x Hx).
  destruct (Z.eqb_spec (Z.shiftr x 28) 0xF) as [->|Hne].
  - reflexivity.
  - apply Z.eqb_neq. lia.
Qed.

Lemma find_first {A} (f : A -> bool) (l : list A) :
  match List.find f l with
  | Some y =>
      exists pre post,
        l = pre ++ y :: post /\ f y = true /\ Forall (fun z => f z = false) pre
  | None => Forall (fun z => f z = false) l
  end.
Proof.
  induction l as [|a l IH]; simpl.
  - constructor.
  - destruct (f a) eqn:Ha.
    + exists [], l. repeat split; [exact Ha | constructor].
    + destruct (List.find f l) as [y|].
      * destruct IH as (pre & post & -> & Hy & Hpre).
        exists (a :: pre), post. repeat split; [exact Hy|].
        constructor; assumption.
      * constructor; assumption.
Qed.

(** C9: a word whose top nibble is [0xF] decodes to [None].  Any other
    word decodes to the first matcher of the table, in declaration order,
    with [x & mask == bits]: every matcher before it fails to match.  It
    decodes to [None] when no matcher of the table matches. *)
Theorem DecodeVFP2_first_match (table : list Decoder.Matcher) (x : Z) :
  is_u32 x ->
  (Z.shiftr x 28 = 0xF -> DecodeVFP2 table x = None)
  /\ (Z.shiftr x 28 <> 0xF ->
      match DecodeVFP2 table x with
      | Some m =>
          exists pre post,
            table = pre ++ m :: post
            /\ Z.land x (Decoder.mask m) = Decoder.expect m
            /\ Forall (fun m' => Z.land x (Decoder.mask m') <> Decoder.expect m') pre
      | None =>
          Forall (fun m' => Z.land x (Decoder.mask m') <> Decoder.expect m') table
      end).
Proof.
  intros Hx. unfold DecodeVFP2. rewrite (unconditional_test x Hx). split.
  - intros ->. reflexivity.
  - intros Hne. apply Z.eqb_neq in Hne. rewrite Hne.
    pose proof (find_first (fun matcher => Decoder.Matches matcher x) table) as Hfind.
    destruct (List.find (fun matcher => Decoder.Matches matcher x) table) as [m|].
    + destruct Hfind as (pre & post & Htab & Hm & Hpre).
      exists pre, post. split; [exact Htab|]. split.
      * apply Z.eqb_eq. exact Hm.
      * eapply Forall_impl; [|exact Hpre].
        intros m' Hm'. apply Z.eqb_neq. exact Hm'.
    + eapply Forall_impl; [|exact Hfind].
      intros m' Hm'. apply Z.eqb_neq. exact Hm'.
Qed.

End DecoderProperties.

(** ** The model on concrete states *)
Section Evaluation.
#[local] Existing Instance sample_ops.
#[local] Existing Instance sample_collaborators.

(** C1, counterexample: the context saved from [sample_jit] holds the host
    code pointer [0x7F0000001000] of the live RSB, and it differs from
    the context saved from a state that differs only in that pointer. *)
Lemma SaveContext_persists_code_pointers :
  rsb_codeptrs (ctx_jit_state (SaveContext_new sample_jit))
  = 0x7F0000001000 :: replicate 15 0
  /\ SaveContext_new sample_jit
     <> SaveContext_new
          (set_jit_state
             (set_rsb (mkRSB 1 (rsb_location_descriptors sample_jit_state)
                         (replicate 16 0)) sample_jit_state)
             sample_jit).
Proof.
  split; [reflexivity|].
  intros Heq.
  apply (f_equal (fun c => rsb_codeptrs (ctx_jit_state c))) in Heq.
  vm_compute in Heq. discriminate Heq.
Qed.

(** C3, on concrete states: a context of generation 2 loaded at
    generation 3 resets the RSB; a context of generation 3 is copied
    through, code pointer included. *)
Lemma LoadContext_rsb_witness :
  jit_state (LoadContext (mkContext sample_saved_state 2) sample_jit)
  = ResetRSB (transfer_guest_fields sample_jit_state sample_saved_state)
  /\ rsb_codeptrs (jit_state (LoadContext (mkContext sample_saved_state 3) sample_jit))
     = rsb_codeptrs sample_saved_state.
Proof.
  split.
  - apply (proj1 (proj2 (LoadContext_rsb (mkContext sample_saved_state 2) sample_jit))).
    cbn. lia.
  - apply (proj2 (proj2 (LoadContext_rsb (mkContext sample_saved_state 3) sample_jit))).
    reflexivity.
Defined.

(** C4, on concrete states. *)
Lemma Run_contract_witness :
  Run sample_running = Err PreconditionViolated
  /\ Run sample_jit
     = Ok (set_is_executing false
             (PerformCacheInvalidation (Execute (Run_entry sample_jit)))).
Proof.
  split.
  - apply (proj1 (Run_contract sample_running)). reflexivity.
  - apply (proj2 (Run_contract sample_jit)). reflexivity.
Defined.

(** C5, counterexample: for [start = 0xFFFFFFFF] and [length = 2] the
    upper bound wraps to 0, the interval is empty and nothing is queued,
    although [0xFFFFFFFF] lies in [[start, start + length - 1]]. *)
Lemma InvalidateCacheRange_wraps :
  range_last 0xFFFFFFFF 2 = 0
  /\ invalid_cache_ranges (InvalidateCacheRange 0xFFFFFFFF 2 sample_running) = []
  /\ IntervalSet.within (0xFFFFFFFF, 0xFFFFFFFF + 2 - 1) 0xFFFFFFFF = true
  /\ ~ queues_closed_interval 0xFFFFFFFF 2 sample_running.
Proof.
  split; [reflexivity|]. split; [reflexivity|]. split; [reflexivity|].
  intros Hclaim.
  assert (Hu : is_u32 0xFFFFFFFF) by (unfold is_u32; lia).
  specialize (Hclaim 0xFFFFFFFF Hu). vm_compute in Hclaim. discriminate Hclaim.
Qed.

(** With [start = 0] and [length = 0] the upper bound wraps the other
    way and the whole address space is queued. *)
Example InvalidateCacheRange_zero_length_at_zero :
  invalid_cache_ranges (InvalidateCacheRange 0 0 sample_running) = [(0, 0xFFFFFFFF)].
Proof. reflexivity. Qed.

(** C5, on concrete states: [invalidate_range(4, 4)] inside [Run] queues
    [[4, 7]] and sets the flag; outside [Run] it is serviced at once. *)
Lemma InvalidateCacheRange_queues_witness :
  InvalidateCacheRange 4 4 sample_running
  = set_jit_state (set_halt_requested true sample_jit_state)
      (set_invalid_cache_ranges [(4, 7)] sample_running)
  /\ invalid_cache_ranges (InvalidateCacheRange 4 4 sample_jit) = IntervalSet.empty.
Proof.
  assert (Hs : is_u32 4) by (unfold is_u32; lia).
  assert (Hl : is_size_t 4) by (unfold is_size_t; lia).
  assert (Hr : 1 <= 4 + 4 <= 2 ^ 32) by lia.
  split.
  - apply (proj1 (proj2 (InvalidateCacheRange_queues 4 4 sample_running Hs Hl Hr
                           (Forall_nil _)))).
    reflexivity.
  - apply (proj2 (proj2 (InvalidateCacheRange_queues 4 4 sample_jit Hs Hl Hr
                           (Forall_nil _)))).
    reflexivity.
Defined.

(** C6, on a concrete state: a full flush of a cache that holds one block,
    at generation 3. *)
Lemma PerformCacheInvalidation_services_witness :
  A32EmitA64.block_descriptors
    (emitter (PerformCacheInvalidation
                (set_invalidate_entire_cache true (GetBasicBlock 0x100 sample_jit).2)))
  = ∅
  /\ invalid_cache_generation
       (PerformCacheInvalidation
          (set_invalidate_entire_cache true (GetBasicBlock 0x100 sample_jit).2))
     = 3 + 1.
Proof.
  pose proof (PerformCacheInvalidation_services
                (set_invalidate_entire_cache true (GetBasicBlock 0x100 sample_jit).2))
    as [Hfull Hgen].
  split.
  - apply Hfull. reflexivity.
  - apply Hgen; [left; reflexivity | vm_compute; split; [discriminate | reflexivity]].
Defined.

(** C7, on a concrete state: a miss with 4 KiB left flushes, then emits
    the block at the start of the arena. *)
Lemma GetBasicBlock_low_space_witness :
  (GetBasicBlock 0x100 sample_nearly_full).1 = mkBlockDescriptor 0 64
  /\ invalid_cache_generation (GetBasicBlock 0x100 sample_nearly_full).2 = 4.
Proof.
  assert (Hmiss : A32EmitA64.GetBasicBlock (emitter sample_nearly_full) 0x100 = None)
    by reflexivity.
  assert (Hspace : BlockOfCode.SpaceRemaining (block_of_code sample_nearly_full)
                   < 1024 * 1024) by (vm_compute; reflexivity).
  destruct (GetBasicBlock_low_space 0x100 sample_nearly_full Hmiss Hspace) as [Heq _].
  rewrite Heq. split; reflexivity.
Defined.

(** C8, counterexample: [Reset] on a state whose flag is set returns a
    state whose flag is clear. *)
Lemma Reset_clears_halt_requested :
  halt_requested (jit_state (HaltExecution sample_jit)) = true
  /\ facade_step OpReset (HaltExecution sample_jit)
     = Ok (set_jit_state A32JitState_zero sample_jit)
  /\ halt_requested (jit_state (set_jit_state A32JitState_zero sample_jit)) = false
  /\ ~ only_Run_clears_halt.
Proof.
  split; [reflexivity|]. split; [reflexivity|]. split; [reflexivity|].
  intros Hclaim.
  specialize (Hclaim OpReset (HaltExecution sample_jit) _ eq_refl eq_refl eq_refl).
  discriminate Hclaim.
Qed.

(** C8, on concrete states: [ClearCache] inside [Run] sets the flag, and
    the theorem names it; [Run] on a state whose flag is set enters
    execution with the flag clear. *)
Lemma halt_requested_transitions_witness :
  (OpClearCache = OpHaltExecution
   \/ (is_executing sample_running = true
       /\ (OpClearCache = OpClearCache
           \/ exists start_address length,
                OpClearCache = OpInvalidateCacheRange start_address length))
   \/ (OpClearCache = OpRun
       /\ halt_requested (jit_state (Execute (Run_entry sample_running))) = true))
  /\ halt_requested (jit_state (Run_entry (HaltExecution sample_jit))) = false.
Proof.
  split.
  - apply (proj1 (proj2 (halt_requested_transitions OpClearCache sample_running
                           (ClearCache sample_running) eq_refl))); reflexivity.
  - apply (proj2 (proj2 (halt_requested_transitions OpRun (HaltExecution sample_jit)
                           (set_is_executing false
                              (PerformCacheInvalidation
                                 (Execute (Run_entry (HaltExecution sample_jit)))))
                           eq_refl)) eq_refl).
Defined.

(** C9, on concrete words: the unconditional [0xFE310A02] is not decoded;
    [0xEE310A42] (VSUB) is decoded by the second matcher, the first one
    failing. *)
Lemma DecodeVFP2_first_match_witness :
  DecodeVFP2 sample_table 0xFE310A02 = None
  /\ match DecodeVFP2 sample_table 0xEE310A42 with
     | Some m =>
         exists pre post,
           sample_table = pre ++ m :: post
           /\ Z.land 0xEE310A42 (Decoder.mask m) = Decoder.expect m
           /\ Forall (fun m' => Z.land 0xEE310A42 (Decoder.mask m') <> Decoder.expect m') pre
     | None =>
         Forall (fun m' => Z.land 0xEE310A42 (Decoder.mask m') <> Decoder.expect m')
           sample_table
     end.
Proof.
  assert (H1 : is_u32 0xFE310A02) by (unfold is_u32; lia).
  assert (H2 : is_u32 0xEE310A42) by (unfold is_u32; lia).
  split.
  - apply (proj1 (DecodeVFP2_first_match sample_table 0xFE310A02 H1)). reflexivity.
  - apply (proj2 (DecodeVFP2_first_match sample_table 0xEE310A42 H2)). discriminate.
Defined.

(** C10, on a concrete state: nothing pending, nothing changes. *)
Lemma PerformCacheInvalidation_nothing_to_do_witness :
  PerformCacheInvalidation sample_jit = sample_jit.
Proof.
  apply (proj1 (PerformCacheInvalidation_nothing_to_do sample_jit eq_refl eq_refl)).
Defined.

End Evaluation.

(** ** Further properties of the facade *)
Section FacadeCompositions.
Context `{!A32JitStateOps} `{!Collaborators}.

(** X1: [Run] clears [halt_requested] before it executes, so a halt
    requested before the call is dropped: [Run] neither reads nor keeps
    the flag it finds. *)
Theorem Run_forgets_earlier_halt (j : Jit) (b : bool) :
  Run (HaltExecution j) = Run j
  /\ Run (set_jit_state (set_halt_requested b (jit_state j)) j) = Run j.
Proof. split; reflexivity. Qed.

(** X2: servicing is idempotent: a second [PerformCacheInvalidation]
    right after the first finds nothing to do. *)
Theorem PerformCacheInvalidation_idempotent (j : Jit) :
  PerformCacheInvalidation (PerformCacheInvalidation j) = PerformCacheInvalidation j.
Proof.
  destruct (PerformCacheInvalidation_nothing_pending j) as [Hr Hf].
  apply PerformCacheInvalidation_idle; [exact Hf | rewrite Hr; reflexivity].
Qed.

(** X3: [ClearCache] outside [Run] flushes at once: RSB reset, arena and
    cache cleared, generation stepped, and the ranges that were pending
    are dropped.  Inside [Run] it sets the full-flush flag and
    [halt_requested] and touches nothing else; the flush is then done by
    the [PerformCacheInvalidation] that ends [Run]. *)
Theorem ClearCache_behaviour (j : Jit) :
  (is_executing j = false ->
     ClearCache j
     = mkJit false (ResetRSB (jit_state j))
         (BlockOfCode.ClearCache (block_of_code j))
         (A32EmitA64.ClearCache (emitter j))
         (wrap64 (invalid_cache_generation j + 1)) IntervalSet.empty false)
  /\ (is_executing j = true ->
        ClearCache j
        = set_jit_state (set_halt_requested true (jit_state j))
            (set_invalidate_entire_cache true j)
        /\ PerformCacheInvalidation (ClearCache j)
           = mkJit true (ResetRSB (set_halt_requested true (jit_state j)))
               (BlockOfCode.ClearCache (block_of_code j))
               (A32EmitA64.ClearCache (emitter j))
               (wrap64 (invalid_cache_generation j + 1)) IntervalSet.empty false).
Proof.
  split; intros Hex.
  - unfold ClearCache, RequestCacheInvalidation. cbn [is_executing set_invalidate_entire_cache].
    rewrite Hex.
    rewrite (PerformCacheInvalidation_full (set_invalidate_entire_cache true j) eq_refl).
    cbn. rewrite Hex. reflexivity.
  - assert (Heq : ClearCache j
                  = set_jit_state (set_halt_requested true (jit_state j))
                      (set_invalidate_entire_cache true j)).
    { unfold ClearCache, RequestCacheInvalidation.
      cbn [is_executing set_invalidate_entire_cache]. rewrite Hex. reflexivity. }
    split; [exact Heq|]. rewrite Heq.
    rewrite PerformCacheInvalidation_full by reflexivity.
    cbn. rewrite Hex. reflexivity.
Qed.

(** X4: saving a context, [Reset], then loading the context brings back
    the whole state except that [halt_requested] is clear: [Reset] leaves
    the generation alone, so the saved RSB is copied through. *)
Theorem LoadContext_after_Reset (j : Jit) (ctx : Context) :
  is_executing j = false ->
  exists j',
    Reset j = Ok j'
    /\ LoadContext (SaveContext j ctx) j'
       = set_jit_state (set_halt_requested false (jit_state j)) j.
Proof.
  intros Hex. unfold Reset. rewrite Hex. eexists. split; [reflexivity|].
  unfold LoadContext, LoadContext_reset_rsb, SaveContext.
  cbn [ctx_invalid_cache_generation ctx_jit_state invalid_cache_generation set_jit_state].
  rewrite Z.eqb_refl. cbn [negb]. rewrite !TransferJitState_copy.
  destruct j as [ex js boc em gen rs fl]. destruct js. reflexivity.
Qed.

(** X5: [LoadContext] writes the guest-state block only: cache, arena,
    generation, pending requests and [is_executing] stay, and so does
    [halt_requested].  Whatever the generations, the registers and the
    CPSR and FPSCR members are those of the context afterwards. *)
Theorem LoadContext_frame (ctx : Context) (j : Jit) :
  let j' := LoadContext ctx j in
  is_executing j' = is_executing j
  /\ block_of_code j' = block_of_code j
  /\ emitter j' = emitter j
  /\ invalid_cache_generation j' = invalid_cache_generation j
  /\ invalid_cache_ranges j' = invalid_cache_ranges j
  /\ invalidate_entire_cache j' = invalidate_entire_cache j
  /\ halt_requested (jit_state j') = halt_requested (jit_state j)
  /\ Reg (jit_state j') = Reg (ctx_jit_state ctx)
  /\ ExtReg (jit_state j') = ExtReg (ctx_jit_state ctx)
  /\ set_rsb (get_rsb (jit_state j)) (jit_state j')
     = transfer_guest_fields (jit_state j) (ctx_jit_state ctx).
Proof.
  unfold LoadContext. cbn zeta.
  destruct (LoadContext_reset_rsb ctx j); cbn; repeat split.
Qed.

(** X6: a context saved before an invalidation is serviced is stale
    afterwards: loading it takes the reset branch, so none of its code
    pointers reaches the live RSB. *)
Theorem LoadContext_stale_after_invalidation (j : Jit) (ctx : Context) :
  0 <= invalid_cache_generation j < 2 ^ 64 ->
  invalidate_entire_cache j = true
  \/ IntervalSet.is_empty (invalid_cache_ranges j) = false ->
  LoadContext_reset_rsb (SaveContext j ctx) (PerformCacheInvalidation j) = true
  /\ jit_state (LoadContext (SaveContext j ctx) (PerformCacheInvalidation j))
     = ResetRSB (transfer_guest_fields (ResetRSB (jit_state j)) (jit_state j)).
Proof.
  intros Hgen Hpending.
  assert (Hg : invalid_cache_generation (PerformCacheInvalidation j)
               = wrap64 (invalid_cache_generation j + 1)).
  { destruct (invalidate_entire_cache j) eqn:Hf.
    - rewrite (PerformCacheInvalidation_full j Hf). reflexivity.
    - destruct Hpending as [Hc|He]; [discriminate|].
      rewrite (PerformCacheInvalidation_partial j Hf He). reflexivity. }
  assert (Hjs : jit_state (PerformCacheInvalidation j) = ResetRSB (jit_state j)).
  { destruct (invalidate_entire_cache j) eqn:Hf.
    - rewrite (PerformCacheInvalidation_full j Hf). reflexivity.
    - destruct Hpending as [Hc|He]; [discriminate|].
      rewrite (PerformCacheInvalidation_partial j Hf He). reflexivity. }
  assert (Hreset : LoadContext_reset_rsb (SaveContext j ctx) (PerformCacheInvalidation j)
                   = true).
  { unfold LoadContext_reset_rsb, SaveContext. cbn [ctx_invalid_cache_generation].
    rewrite Hg. apply negb_true_iff, Z.eqb_neq. unfold wrap64.
    destruct (Z.eq_dec (invalid_cache_generation j) (2 ^ 64 - 1)) as [Hmax|Hmax].
    - rewrite Hmax. vm_compute. discriminate.
    - rewrite Z.mod_small by lia. lia. }
  split; [exact Hreset|].
  unfold LoadContext. rewrite Hreset. cbn [jit_state set_jit_state].
  rewrite Hjs. unfold SaveContext. cbn [ctx_jit_state].
  rewrite TransferJitState_copy, TransferJitState_reset. reflexivity.
Qed.

(** X7: [GetBasicBlock], and with it [Disassemble], never writes a guest
    register, a CPSR or FPSCR member, [halt_requested] or
    [is_executing]: the guest-state block it leaves differs from the one
    it found in the RSB at most.  On a hit nothing changes at all. *)
Theorem GetBasicBlock_keeps_guest_state (descriptor : Z) (j : Jit) :
  set_rsb (get_rsb (jit_state j)) (jit_state (GetBasicBlock descriptor j).2) = jit_state j
  /\ is_executing (GetBasicBlock descriptor j).2 = is_executing j
  /\ (forall block,
        A32EmitA64.GetBasicBlock (emitter j) descriptor = Some block ->
        GetBasicBlock descriptor j = (block, j)).
Proof.
  assert (Hjs : forall s, set_rsb (get_rsb s) s = s) by (intros []; reflexivity).
  assert (Hjr : forall s, set_rsb (get_rsb s) (ResetRSB s) = s) by (intros []; reflexivity).
  unfold GetBasicBlock.
  destruct (A32EmitA64.GetBasicBlock (emitter j) descriptor) as [block|].
  - split; [apply Hjs|]. split; [reflexivity|]. intros b Hb. congruence.
  - split; [|split; [|discriminate]].
    + destruct (BlockOfCode.SpaceRemaining (block_of_code j) <? MINIMUM_REMAINING_CODESIZE).
      * rewrite (PerformCacheInvalidation_full (set_invalidate_entire_cache true j) eq_refl).
        apply Hjr.
      * apply Hjs.
    + destruct (BlockOfCode.SpaceRemaining (block_of_code j) <? MINIMUM_REMAINING_CODESIZE).
      * rewrite (PerformCacheInvalidation_full (set_invalidate_entire_cache true j) eq_refl).
        reflexivity.
      * reflexivity.
Qed.

(** X8: on a miss with at least 1 MiB left nothing is flushed: the block
    is emitted into the cache as it stands, and guest state, generation
    and pending requests are untouched (a pending request is not
    serviced either). *)
Theorem GetBasicBlock_enough_space (descriptor : Z) (j : Jit) :
  A32EmitA64.GetBasicBlock (emitter j) descriptor = None ->
  1024 * 1024 <= BlockOfCode.SpaceRemaining (block_of_code j) ->
  let emitted := Emit (translate_and_optimize descriptor) (emitter j, block_of_code j) in
  GetBasicBlock descriptor j
  = (emitted.1, set_block_of_code emitted.2.2 (set_emitter emitted.2.1 j))
  /\ jit_state (GetBasicBlock descriptor j).2 = jit_state j
  /\ invalid_cache_generation (GetBasicBlock descriptor j).2 = invalid_cache_generation j
  /\ invalid_cache_ranges (GetBasicBlock descriptor j).2 = invalid_cache_ranges j
  /\ invalidate_entire_cache (GetBasicBlock descriptor j).2 = invalidate_entire_cache j.
Proof.
  intros Hmiss Hspace emitted.
  assert (Heq : GetBasicBlock descriptor j
                = (emitted.1, set_block_of_code emitted.2.2 (set_emitter emitted.2.1 j))).
  { unfold GetBasicBlock. rewrite Hmiss.
    assert (Hge : (BlockOfCode.SpaceRemaining (block_of_code j)
                   <? MINIMUM_REMAINING_CODESIZE) = false).
    { apply Z.ltb_ge. unfold MINIMUM_REMAINING_CODESIZE. lia. }
    rewrite Hge. reflexivity. }
  rewrite Heq. repeat split.
Qed.

End FacadeCompositions.

Section FacadeInvariants.
Context `{!A32JitStateOps} `{!Collaborators}.

Lemma rsb_index_mod (p : Z) :
  Z.land (wrap32 (p - 1)) RSBPtrMask = (p - 1) mod 16.
Proof.
  unfold wrap32. change RSBPtrMask with (Z.ones 4).
  rewrite Z.land_ones by lia.
  change (2 ^ 32) with (2 ^ 4 * 2 ^ 28). change (2 ^ 4) with 16.
  rewrite Z.rem_mul_r by lia.
  rewrite Z.mul_comm, Z.mod_add by lia. apply Z.mod_mod. lia.
Qed.

(** X9: [Execute] reads the RSB at [(rsb_ptr - 1) mod 16], an index of
    the ring for every value of [rsb_ptr], 0 included (it wraps to 15).
    If the location descriptor there is the hash of the current location
    the pointer moves to that index and emitted code is entered at the
    recorded code pointer; otherwise the state is passed on untouched. *)
Theorem Execute_rsb_hint (j : Jit) :
  let p := (rsb_ptr (jit_state j) - 1) mod 16 in
  0 <= p < RSBSize
  /\ (rsb_location_descriptors (jit_state j) !!! Z.to_nat p = GetUniqueHash (jit_state j) ->
        Execute j
        = RunCodeFrom (rsb_codeptrs (jit_state j) !!! Z.to_nat p)
            (set_jit_state (set_rsb_ptr p (jit_state j)) j))
  /\ (rsb_location_descriptors (jit_state j) !!! Z.to_nat p <> GetUniqueHash (jit_state j) ->
        Execute j = RunCode j).
Proof.
  cbn zeta. split; [|split].
  - unfold RSBSize. apply Z.mod_pos_bound. lia.
  - intros Hhit. unfold Execute. rewrite rsb_index_mod.
    rewrite Hhit, Z.eqb_refl. reflexivity.
  - intros Hmiss. unfold Execute. rewrite rsb_index_mod.
    assert (Hne : (GetUniqueHash (jit_state j)
                   =? rsb_location_descriptors (jit_state j)
                        !!! Z.to_nat ((rsb_ptr (jit_state j) - 1) mod 16)) = false).
    { apply Z.eqb_neq. congruence. }
    rewrite Hne. reflexivity.
Qed.

(** X10: outside [Run] and with no full flush requested,
    [InvalidateCacheRange] on a non-empty range that ends within the
    address space takes the partial path at once: the RSB is reset, the
    emitter is handed a set that holds every address of
    [[start, start + length - 1]], the pending set is empty again and
    the generation has stepped. *)
Theorem InvalidateCacheRange_immediate (start_address length : Z) (j : Jit) :
  is_u32 start_address -> 1 <= length ->
  start_address + length <= 2 ^ 32 ->
  IntervalSet.wf (invalid_cache_ranges j) ->
  is_executing j = false ->
  invalidate_entire_cache j = false ->
  let queued :=
    IntervalSet.add
      (IntervalSet.closed start_address (range_last start_address length))
      (invalid_cache_ranges j) in
  (forall x, start_address <= x <= start_address + length - 1 ->
             IntervalSet.contains queued x = true)
  /\ InvalidateCacheRange start_address length j
     = mkJit false (ResetRSB (jit_state j))
         (InvalidateCacheRanges queued (emitter j, block_of_code j)).2
         (InvalidateCacheRanges queued (emitter j, block_of_code j)).1
         (wrap64 (invalid_cache_generation j + 1)) IntervalSet.empty false.
Proof.
  intros Hs Hl Hend Hwf Hex Hflag queued.
  assert (Hlast : range_last start_address length = start_address + length - 1).
  { apply range_last_exact. unfold is_u32 in Hs. lia. }
  assert (Hin : forall x, start_address <= x <= start_address + length - 1 ->
                          IntervalSet.contains queued x = true).
  { intros x Hx. subst queued.
    rewrite IntervalSetFacts.contains_add by exact Hwf.
    apply orb_true_iff. left. unfold IntervalSet.closed, IntervalSet.within. simpl.
    rewrite Hlast. apply andb_true_iff. rewrite !Z.leb_le. lia. }
  split; [exact Hin|].
  assert (Hne : IntervalSet.is_empty queued = false).
  { destruct queued as [|iv rest] eqn:Hq; [|reflexivity].
    specialize (Hin start_address ltac:(lia)). discriminate Hin. }
  unfold InvalidateCacheRange, RequestCacheInvalidation.
  cbn [is_executing set_invalid_cache_ranges]. rewrite Hex.
  fold queued.
  rewrite PerformCacheInvalidation_partial by (cbn; assumption).
  cbn. rewrite Hex. reflexivity.
Qed.

(** X11: saving the running guest, loading another context and loading
    the saved one again brings the first state back exactly, as long as
    no invalidation was serviced in between. *)
Theorem context_switch_round_trip (j : Jit) (other ctx : Context) :
  LoadContext (SaveContext j ctx) (LoadContext other j) = j.
Proof.
  unfold LoadContext at 1. unfold LoadContext_reset_rsb, SaveContext.
  cbn [ctx_invalid_cache_generation ctx_jit_state].
  assert (Hgen : invalid_cache_generation (LoadContext other j)
                 = invalid_cache_generation j) by reflexivity.
  assert (Hhalt : halt_requested (jit_state (LoadContext other j))
                  = halt_requested (jit_state j)).
  { unfold LoadContext. cbn [jit_state set_jit_state].
    apply TransferJitState_halt_requested. }
  rewrite Hgen, Z.eqb_refl. cbn [negb].
  rewrite !TransferJitState_copy. cbn [halt_requested set_halt_requested].
  rewrite Hhalt. unfold LoadContext.
  destruct j as [ex js boc em gen rs fl]. destruct js. reflexivity.
Qed.

Lemma get_rsb_ResetRSB (s : A32JitState) : get_rsb (ResetRSB s) = rsb_after_reset s.
Proof. unfold ResetRSB, get_rsb. destruct (rsb_after_reset s). reflexivity. Qed.

(** X12: outside [Run] the generation moves only when an invalidation is
    serviced: after any other facade operation it is the old one, or it
    has stepped by one, and then the live RSB has been reset and nothing
    is pending. *)
Theorem generation_steps_with_rsb_reset (op : FacadeOp) (j j' : Jit) :
  op <> OpRun ->
  facade_step op j = Ok j' ->
  invalid_cache_generation j' = invalid_cache_generation j
  \/ (invalid_cache_generation j' = wrap64 (invalid_cache_generation j + 1)
      /\ get_rsb (jit_state j') = rsb_after_reset (jit_state j)
      /\ invalid_cache_ranges j' = IntervalSet.empty
      /\ invalidate_entire_cache j' = false).
Proof.
  intros Hop Hstep.
  assert (HP : forall k,
             invalid_cache_generation (PerformCacheInvalidation k)
             = invalid_cache_generation k
             \/ (invalid_cache_generation (PerformCacheInvalidation k)
                 = wrap64 (invalid_cache_generation k + 1)
                 /\ get_rsb (jit_state (PerformCacheInvalidation k))
                    = rsb_after_reset (jit_state k)
                 /\ invalid_cache_ranges (PerformCacheInvalidation k) = IntervalSet.empty
                 /\ invalidate_entire_cache (PerformCacheInvalidation k) = false)).
  { intros k. destruct (invalidate_entire_cache k) eqn:Hf.
    - right. rewrite (PerformCacheInvalidation_full k Hf).
      cbn. rewrite get_rsb_ResetRSB. repeat split.
    - destruct (IntervalSet.is_empty (invalid_cache_ranges k)) eqn:He.
      + left. rewrite (PerformCacheInvalidation_idle k Hf He). reflexivity.
      + right. rewrite (PerformCacheInvalidation_partial k Hf He).
        cbn. rewrite get_rsb_ResetRSB. repeat split. }
  destruct op; cbn [facade_step] in Hstep; try (injection Hstep as <-).
  - exfalso. apply Hop. reflexivity.
  - unfold ClearCache, RequestCacheInvalidation. cbn [is_executing set_invalidate_entire_cache].
    destruct (is_executing j); [left; reflexivity|].
    apply (HP (set_invalidate_entire_cache true j)).
  - unfold InvalidateCacheRange, RequestCacheInvalidation.
    cbn [is_executing set_invalid_cache_ranges].
    destruct (is_executing j); [left; reflexivity|].
    apply (HP (set_invalid_cache_ranges _ j)).
  - unfold Reset in Hstep. destruct (is_executing j); [discriminate|].
    injection Hstep as <-. left. reflexivity.
  - left. reflexivity.
  - left. reflexivity.
  - left. reflexivity.
  - left. reflexivity.
  - left. reflexivity.
  - left. reflexivity.
  - left. reflexivity.
  - unfold Disassemble, GetBasicBlock.
    destruct (A32EmitA64.GetBasicBlock (emitter j) descriptor); [left; reflexivity|].
    destruct (BlockOfCode.SpaceRemaining (block_of_code j) <? MINIMUM_REMAINING_CODESIZE);
      [|left; reflexivity].
    right.
    rewrite (PerformCacheInvalidation_full (set_invalidate_entire_cache true j) eq_refl).
    cbn. rewrite get_rsb_ResetRSB. repeat split.
Qed.

Lemma facade_step_idle (op : FacadeOp) (j : Jit) :
  idle j -> exists j', facade_step op j = Ok j' /\ idle j'.
Proof.
  intros (Hex & Hr & Hf).
  assert (HP : forall k, is_executing k = false -> idle (PerformCacheInvalidation k)).
  { intros k Hk. destruct (PerformCacheInvalidation_nothing_pending k) as [H1 H2].
    split; [|split; assumption].
    rewrite PerformCacheInvalidation_is_executing. exact Hk. }
  destruct op; cbn [facade_step].
  - unfold Run. rewrite Hex. eexists. split; [reflexivity|].
    destruct (PerformCacheInvalidation_nothing_pending (Execute (Run_entry j)))
      as [H1 H2].
    split; [reflexivity|]. split; cbn; assumption.
  - eexists. split; [reflexivity|].
    unfold ClearCache, RequestCacheInvalidation. cbn [is_executing set_invalidate_entire_cache].
    rewrite Hex. apply HP. exact Hex.
  - eexists. split; [reflexivity|].
    unfold InvalidateCacheRange, RequestCacheInvalidation.
    cbn [is_executing set_invalid_cache_ranges]. rewrite Hex. apply HP. exact Hex.
  - unfold Reset. rewrite Hex. eexists. split; [reflexivity|].
    split; [exact Hex|]. split; assumption.
  - eexists. split; [reflexivity|]. split; [exact Hex|]. split; assumption.
  - eexists. split; [reflexivity|]. split; [exact Hex|]. split; assumption.
  - eexists. split; [reflexivity|]. split; [exact Hex|]. split; assumption.
  - eexists. split; [reflexivity|]. split; [exact Hex|]. split; assumption.
  - eexists. split; [reflexivity|]. split; [exact Hex|]. split; assumption.
  - eexists. split; [reflexivity|]. split; [exact Hex|]. split; assumption.
  - eexists. split; [reflexivity|]. split; [exact Hex|]. split; assumption.
  - eexists. split; [reflexivity|].
    unfold Disassemble, GetBasicBlock.
    destruct (A32EmitA64.GetBasicBlock (emitter j) descriptor);
      [split; [exact Hex|]; split; assumption|].
    destruct (BlockOfCode.SpaceRemaining (block_of_code j) <? MINIMUM_REMAINING_CODESIZE).
    + destruct (HP (set_invalidate_entire_cache true j) Hex) as (H1 & H2 & H3).
      split; [exact H1|]. split; [exact H2 | exact H3].
    + split; [exact Hex|]. split; assumption.
Qed.

(** X13: a consumer that is outside [Run] with nothing pending can make
    any sequence of facade calls: none of them fails an assertion, and
    after the last one it is again outside [Run] with nothing pending. *)
Theorem facade_steps_never_fail (ops : list FacadeOp) (j : Jit) :
  idle j -> exists j', facade_steps ops j = Ok j' /\ idle j'.
Proof.
  revert j. induction ops as [|op rest IH]; intros j Hidle.
  - exists j. split; [reflexivity | exact Hidle].
  - destruct (facade_step_idle op j Hidle) as (j1 & Hstep & Hidle1).
    destruct (IH j1 Hidle1) as (j2 & Hsteps & Hidle2).
    exists j2. split; [|exact Hidle2].
    cbn [facade_steps]. rewrite Hstep. exact Hsteps.
Qed.

End FacadeInvariants.

(** ** Further properties of the decoder and of the fuzzer's generator *)
Section GeneratorProperties.

Lemma find_app_first {A} (f : A -> bool) (l1 l2 : list A) :
  List.find f (l1 ++ l2)
  = match List.find f l1 with
    | Some y => Some y
    | None => List.find f l2
    end.
Proof.
  induction l1 as [|a l1 IH]; simpl; [reflexivity|].
  destruct (f a); [reflexivity | exact IH].
Qed.

(** X14: decoding with two tables one after the other is decoding with
    the first and, only if that finds nothing, with the second: a matcher
    is never preferred to one declared before it, and appending matchers
    never changes what an instruction already decoded to. *)
Theorem DecodeVFP2_app (table1 table2 : list Decoder.Matcher) (x : Z) :
  DecodeVFP2 (table1 ++ table2) x
  = match DecodeVFP2 table1 x with
    | Some m => Some m
    | None => DecodeVFP2 table2 x
    end.
Proof.
  unfold DecodeVFP2.
  destruct (Z.land x 0xF0000000 =? 0xF0000000); [reflexivity|].
  apply find_app_first.
Qed.

Lemma is_u32_mod (x : Z) : is_u32 x <-> x mod 2 ^ 32 = x.
Proof.
  unfold is_u32. split.
  - intros Hx. apply Z.mod_small. exact Hx.
  - intros Hx. rewrite <- Hx. apply Z.mod_pos_bound. lia.
Qed.

Lemma is_u32_lor (a b : Z) : is_u32 a -> is_u32 b -> is_u32 (Z.lor a b).
Proof.
  rewrite !is_u32_mod. intros Ha Hb.
  rewrite <- Z.land_ones in * by lia.
  rewrite Z.land_lor_distr_l, Ha, Hb. reflexivity.
Qed.

Lemma is_u32_land_r (a b : Z) : is_u32 b -> is_u32 (Z.land a b).
Proof.
  rewrite !is_u32_mod. intros Hb.
  rewrite <- Z.land_ones in * by lia.
  rewrite <- Z.land_assoc, Hb. reflexivity.
Qed.

Lemma is_u32_bit (e : Z) : e <= 31 -> is_u32 (Z.shiftl 1 e).
Proof.
  intros He. unfold is_u32. destruct (Z.le_gt_cases 0 e) as [Hpos|Hneg].
  - rewrite Z.shiftl_1_l. split; [apply Z.pow_nonneg; lia|].
    apply Z.pow_lt_mono_r; lia.
  - rewrite Z.shiftl_1_l, Z.pow_neg_r by lia. lia.
Qed.

Lemma testbit_bit (e n : Z) :
  0 <= n -> Z.testbit (Z.shiftl 1 e) n = (e =? n).
Proof.
  intros Hn. destruct (Z.le_gt_cases 0 e) as [Hpos|Hneg].
  - rewrite Z.shiftl_1_l. apply Z.pow2_bits_eqb. exact Hpos.
  - rewrite Z.shiftl_1_l, Z.pow_neg_r, Z.bits_0 by lia.
    symmetry. apply Z.eqb_neq. lia.
Qed.

Lemma land_lor_absorb (b m t : Z) :
  Z.land b m = b -> Z.land (Z.lor b t) (Z.lor m t) = Z.lor b t.
Proof.
  intros Hb. rewrite <- Z.lor_land_distr_l. rewrite Hb. reflexivity.
Qed.

Lemma land_lor_weaken (b m t : Z) :
  Z.land b m = b -> Z.land b (Z.lor m t) = b.
Proof.
  intros Hb. apply Z.bits_inj'. intros n Hn.
  pose proof (f_equal (fun z => Z.testbit z n) Hb) as Hbit. cbv beta in Hbit.
  rewrite Z.land_spec in Hbit. rewrite Z.land_spec, Z.lor_spec.
  destruct (Z.testbit b n), (Z.testbit m n), (Z.testbit t n); simpl in *; congruence.
Qed.

Import InstructionGenerator.

(** The loop keeps both words within 32 bits and [bits] within [mask]. *)
Lemma scan_invariant (format : string) : forall i b m,
  0 <= i -> is_u32 b -> is_u32 m -> Z.land b m = b ->
  is_u32 (scan format i b m).1 /\ is_u32 (scan format i b m).2
  /\ Z.land (scan format i b m).1 (scan format i b m).2 = (scan format i b m).1.
Proof.
  induction format as [|c rest IH]; intros i b m Hi Hb Hm Hbm; simpl.
  - split; [exact Hb | split; [exact Hm | exact Hbm]].
  - assert (Hbit : is_u32 (Z.shiftl 1 (31 - i))) by (apply is_u32_bit; lia).
    destruct (Ascii.eqb c "0"%char); [|destruct (Ascii.eqb c "1"%char)].
    + apply IH; [lia | assumption | apply is_u32_lor; assumption |].
      apply land_lor_weaken. exact Hbm.
    + apply IH; [lia | apply is_u32_lor; assumption | apply is_u32_lor; assumption |].
      apply land_lor_absorb. exact Hbm.
    + apply IH; [lia | assumption | assumption | exact Hbm].
Qed.

(** Positions already passed are not written again. *)
Lemma scan_above (format : string) : forall i b m n,
  0 <= n -> 31 - i < n ->
  Z.testbit (scan format i b m).1 n = Z.testbit b n
  /\ Z.testbit (scan format i b m).2 n = Z.testbit m n.
Proof.
  induction format as [|c rest IH]; intros i b m n Hn Hi; simpl.
  - split; reflexivity.
  - assert (Hbit : Z.testbit (Z.shiftl 1 (31 - i)) n = false).
    { rewrite testbit_bit by exact Hn. apply Z.eqb_neq. lia. }
    destruct (Ascii.eqb c "0"%char); [|destruct (Ascii.eqb c "1"%char)].
    + destruct (IH (i + 1) b (Z.lor m (Z.shiftl 1 (31 - i))) n Hn ltac:(lia)) as [H1 H2].
      rewrite H1, H2, Z.lor_spec, Hbit, orb_false_r. split; reflexivity.
    + destruct (IH (i + 1) (Z.lor b (Z.shiftl 1 (31 - i)))
                  (Z.lor m (Z.shiftl 1 (31 - i))) n Hn ltac:(lia)) as [H1 H2].
      rewrite H1, H2, !Z.lor_spec, Hbit, !orb_false_r. split; reflexivity.
    + apply IH; [exact Hn | lia].
Qed.

(** The character at position [k] decides bit [31 - i - k]. *)
Lemma scan_get (format : string) : forall (k : nat) c i b m,
  0 <= i -> i + Z.of_nat k <= 31 ->
  String.get k format = Some c ->
  Z.testbit (scan format i b m).1 (31 - i - Z.of_nat k)
  = Z.testbit b (31 - i - Z.of_nat k) || is_one c
  /\ Z.testbit (scan format i b m).2 (31 - i - Z.of_nat k)
     = Z.testbit m (31 - i - Z.of_nat k) || is_fixed c.
Proof.
  induction format as [|c0 rest IH]; intros k c i b m Hi Hk Hget.
  - destruct k; discriminate Hget.
  - destruct k as [|k].
    + simpl in Hget. injection Hget as ->.
      change (Z.of_nat 0) with 0. rewrite Z.sub_0_r.
      assert (Hbit : Z.testbit (Z.shiftl 1 (31 - i)) (31 - i) = true).
      { rewrite testbit_bit by lia. apply Z.eqb_refl. }
      simpl scan. unfold is_fixed, is_one.
      destruct (Ascii.eqb c "0"%char) eqn:H0; [|destruct (Ascii.eqb c "1"%char) eqn:H1].
      * assert (Hc1 : Ascii.eqb c "1"%char = false).
        { apply Ascii.eqb_eq in H0. subst c. reflexivity. }
        rewrite Hc1.
        destruct (scan_above rest (i + 1) b (Z.lor m (Z.shiftl 1 (31 - i))) (31 - i)
                    ltac:(lia) ltac:(lia)) as [E1 E2].
        rewrite E1, E2, Z.lor_spec, Hbit, !orb_false_r, !orb_true_r.
        split; reflexivity.
      * destruct (scan_above rest (i + 1) (Z.lor b (Z.shiftl 1 (31 - i)))
                    (Z.lor m (Z.shiftl 1 (31 - i))) (31 - i)
                    ltac:(lia) ltac:(lia)) as [E1 E2].
        rewrite E1, E2, !Z.lor_spec, Hbit, !orb_true_r. split; reflexivity.
      * destruct (scan_above rest (i + 1) b m (31 - i) ltac:(lia) ltac:(lia)) as [E1 E2].
        rewrite E1, E2, !orb_false_r. split; reflexivity.
    + simpl in Hget.
      replace (31 - i - Z.of_nat (S k)) with (31 - (i + 1) - Z.of_nat k) by lia.
      assert (Hbit : Z.testbit (Z.shiftl 1 (31 - i)) (31 - (i + 1) - Z.of_nat k) = false).
      { rewrite testbit_bit by lia. apply Z.eqb_neq. lia. }
      simpl scan.
      destruct (Ascii.eqb c0 "0"%char); [|destruct (Ascii.eqb c0 "1"%char)].
      * destruct (IH k c (i + 1) b (Z.lor m (Z.shiftl 1 (31 - i)))
                    ltac:(lia) ltac:(lia) Hget) as [E1 E2].
        rewrite E1, E2, Z.lor_spec, Hbit, orb_false_r. split; reflexivity.
      * destruct (IH k c (i + 1) (Z.lor b (Z.shiftl 1 (31 - i)))
                    (Z.lor m (Z.shiftl 1 (31 - i)))
                    ltac:(lia) ltac:(lia) Hget) as [E1 E2].
        rewrite E1, E2, !Z.lor_spec, Hbit, !orb_false_r. split; reflexivity.
      * apply IH; [lia | lia | exact Hget].
Qed.

(** X15: the constructor accepts exactly the formats of 32 characters.
    For those, [Mask] has bit [31 - k] set iff character [k] is [0] or
    [1], and [Bits] has it set iff the character is [1]; both are 32-bit
    words and [Bits] lies within [Mask]. *)
Theorem InstructionGenerator_new_bits (format : string) (valid : Z -> bool) :
  (String.length format <> 32%nat -> new format valid = None)
  /\ (String.length format = 32%nat ->
      exists g,
        new format valid = Some g
        /\ is_valid g = valid
        /\ is_u32 (bits g) /\ is_u32 (mask g)
        /\ Z.land (bits g) (mask g) = bits g
        /\ forall (k : nat) c,
             String.get k format = Some c ->
             Z.testbit (mask g) (31 - Z.of_nat k) = is_fixed c
             /\ Z.testbit (bits g) (31 - Z.of_nat k) = is_one c).
Proof.
  unfold new. split; intros Hlen.
  - assert (Hne : (Z.of_nat (String.length format) =? 32) = false)
      by (apply Z.eqb_neq; lia).
    rewrite Hne. reflexivity.
  - rewrite Hlen. cbn [Z.of_nat Z.eqb Pos.eqb Pos.of_succ_nat Pos.succ].
    assert (H0 : is_u32 0) by (unfold is_u32; lia).
    destruct (scan_invariant format 0 0 0 ltac:(lia) H0 H0 eq_refl) as (Hb & Hm & Hbm).
    eexists. split; [reflexivity|]. cbn [is_valid bits mask].
    repeat split; try assumption; try apply Hb; try apply Hm.
    + assert (Hk : (k < 32)%nat).
      { rewrite <- Hlen. clear - H. revert k H.
        induction format as [|c0 rest IH]; intros k Hget.
        - destruct k; discriminate Hget.
        - destruct k as [|k]; simpl in *; [lia|].
          specialize (IH k Hget). lia. }
      destruct (scan_get format k c 0 0 0 ltac:(lia) ltac:(lia) H) as [_ E2].
      rewrite Z.sub_0_r in E2. rewrite E2, Z.bits_0. reflexivity.
    + assert (Hk : (k < 32)%nat).
      { rewrite <- Hlen. clear - H. revert k H.
        induction format as [|c0 rest IH]; intros k Hget.
        - destruct k; discriminate Hget.
        - destruct k as [|k]; simpl in *; [lia|].
          specialize (IH k Hget). lia. }
      destruct (scan_get format k c 0 0 0 ltac:(lia) ltac:(lia) H) as [E1 _].
      rewrite Z.sub_0_r in E1. rewrite E1, Z.bits_0. reflexivity.
Qed.

End GeneratorProperties.

Section GenerateProperties.
Import InstructionGenerator.

Lemma not_mask_disjoint (m : Z) : Z.land (wrap32 (Z.lnot m)) m = 0.
Proof.
  unfold wrap32. rewrite <- Z.land_ones by lia.
  rewrite <- Z.land_assoc, (Z.land_comm (Z.ones 32) m), Z.land_assoc.
  rewrite (Z.land_comm (Z.lnot m) m), Z.land_lnot_diag. apply Z.land_0_l.
Qed.

Lemma is_u32_wrap32 (x : Z) : is_u32 (wrap32 x).
Proof. unfold is_u32, wrap32. apply Z.mod_pos_bound. lia. Qed.

(** Every word the loop body forms agrees with the pattern on its fixed
    bits. *)
Lemma candidate_matches (g : t) (condition : bool) (random : Z) :
  Z.land (bits g) (mask g) = bits g ->
  Z.land (candidate g condition random) (mask g) = bits g.
Proof.
  intros Hbm. unfold candidate.
  rewrite Z.land_lor_distr_l, Hbm.
  rewrite <- Z.land_assoc, not_mask_disjoint, Z.land_0_r. apply Z.lor_0_r.
Qed.

Lemma candidate_u32 (g : t) (condition : bool) (random : Z) :
  is_u32 (bits g) -> is_u32 (candidate g condition random).
Proof.
  intros Hb. unfold candidate. apply is_u32_lor; [exact Hb|].
  apply is_u32_land_r. apply is_u32_wrap32.
Qed.

(** With [condition] set, and a pattern that leaves the top nibble free,
    the top nibble of the word is clear before a condition is put in. *)
Lemma candidate_top_nibble (g : t) (random : Z) :
  Z.land (bits g) (mask g) = bits g ->
  Z.land (mask g) 0xF0000000 = 0 ->
  Z.land (candidate g true random) 0xF0000000 = 0.
Proof.
  intros Hbm Htop. unfold candidate.
  rewrite Z.land_lor_distr_l.
  replace (Z.land (bits g) 0xF0000000) with 0.
  2:{ rewrite <- Hbm, <- Z.land_assoc, Htop. symmetry. apply Z.land_0_r. }
  change (wrap32 (Z.lnot (Z.shiftl 0xF 28))) with 0x0FFFFFFF.
  rewrite (Z.land_comm (Z.land random 0x0FFFFFFF)).
  rewrite <- !Z.land_assoc.
  change (Z.land 0x0FFFFFFF 0xF0000000) with 0.
  rewrite !Z.land_0_r. reflexivity.
Qed.

Lemma shifted_cond (cond : Z) :
  0 <= cond <= 0xE ->
  is_u32 (Z.shiftl cond 28)
  /\ Z.land (Z.shiftl cond 28) 0xF0000000 = Z.shiftl cond 28
  /\ Z.shiftr (Z.shiftl cond 28) 28 = cond.
Proof.
  intros Hc.
  assert (Hu : is_u32 (Z.shiftl cond 28)).
  { unfold is_u32. rewrite Z.shiftl_mul_pow2 by lia. lia. }
  assert (Hr : Z.shiftr (Z.shiftl cond 28) 28 = cond).
  { rewrite Z.shiftr_shiftl_l by lia. apply Z.shiftl_0_r. }
  split; [exact Hu|]. split; [|exact Hr].
  rewrite (land_top_nibble _ Hu), Hr. symmetry. apply Z.shiftl_mul_pow2. lia.
Qed.

Lemma draw_first (g : t) (condition : bool) (randoms : list Z) :
  match draw g condition randoms with
  | Some inst =>
      exists pre random post,
        randoms = pre ++ random :: post
        /\ inst = candidate g condition random
        /\ is_valid g inst = true
        /\ Forall (fun r => is_valid g (candidate g condition r) = false) pre
  | None => Forall (fun r => is_valid g (candidate g condition r) = false) randoms
  end.
Proof.
  induction randoms as [|r rest IH]; simpl.
  - constructor.
  - destruct (is_valid g (candidate g condition r)) eqn:Hv.
    + exists [], r, rest. repeat split; [exact Hv | constructor].
    + destruct (draw g condition rest) as [inst|].
      * destruct IH as (pre & random & post & -> & Hinst & Hvalid & Hpre).
        exists (r :: pre), random, post. repeat split; try assumption.
        constructor; assumption.
      * constructor; assumption.
Qed.

(** X16: [Generate] returns the first drawn word that [is_valid]
    accepts, with the condition put in afterwards; it returns nothing
    only when every draw was rejected.  The validity test is applied to
    the word before the condition is put in, not to the word returned. *)
Theorem Generate_first_valid (g : t) (randoms : list Z) (chance cond : Z) :
  match Generate g true randoms chance cond with
  | Some inst =>
      exists pre random post,
        randoms = pre ++ random :: post
        /\ is_valid g (candidate g true random) = true
        /\ Forall (fun r => is_valid g (candidate g true r) = false) pre
        /\ inst = Z.lor (candidate g true random)
                    (Z.shiftl (if chance =? 1 then cond else 0xE) 28)
  | None => Forall (fun r => is_valid g (candidate g true r) = false) randoms
  end.
Proof.
  unfold Generate. pose proof (draw_first g true randoms) as Hd.
  destruct (draw g true randoms) as [inst|]; [|exact Hd].
  destruct Hd as (pre & random & post & Hr & Hinst & Hvalid & Hpre).
  exists pre, random, post. subst inst. repeat split; try assumption.
  destruct (chance =? 1); reflexivity.
Qed.

(** X17: for a generator whose pattern leaves the top nibble free, every
    instruction [Generate] returns is a 32-bit word that agrees with the
    pattern on all fixed bits and carries the chosen condition, never
    [0xF], in its top nibble.  [DecodeVFP2] therefore decodes it with
    any table that holds a matcher for the pattern. *)
Theorem Generate_matches_pattern
    (g : t) (randoms : list Z) (chance cond inst : Z)
    (table : list Decoder.Matcher) (nm : string) :
  is_u32 (bits g) ->
  Z.land (bits g) (mask g) = bits g ->
  Z.land (mask g) 0xF0000000 = 0 ->
  0 <= cond <= 0xD ->
  Generate g true randoms chance cond = Some inst ->
  is_u32 inst
  /\ Z.land inst (mask g) = bits g
  /\ Z.shiftr inst 28 = (if chance =? 1 then cond else 0xE)
  /\ (In (Decoder.mkMatcher nm (mask g) (bits g)) table ->
      exists m, DecodeVFP2 table inst = Some m).
Proof.
  intros Hb Hbm Htop Hcond Hgen.
  assert (Hfirst : exists random,
             inst = Z.lor (candidate g true random)
                      (Z.shiftl (if chance =? 1 then cond else 0xE) 28)).
  { unfold Generate in Hgen. pose proof (draw_first g true randoms) as Hd.
    destruct (draw g true randoms) as [word|]; [|discriminate Hgen].
    destruct Hd as (_ & random & _ & _ & Hword & _ & _).
    exists random. injection Hgen as <-. subst word.
    destruct (chance =? 1); reflexivity. }
  destruct Hfirst as (random & Hinst).
  set (c := if chance =? 1 then cond else 0xE) in *.
  assert (Hc : 0 <= c <= 0xE) by (subst c; destruct (chance =? 1); lia).
  destruct (shifted_cond c Hc) as (Hcu & Hcl & Hcr).
  pose proof (candidate_u32 g true random Hb) as Hu.
  pose proof (candidate_matches g true random Hbm) as Hm.
  pose proof (candidate_top_nibble g random Hbm Htop) as Ht.
  assert (Hinst_u : is_u32 inst) by (subst inst; apply is_u32_lor; assumption).
  assert (Hinst_m : Z.land inst (mask g) = bits g).
  { subst inst. rewrite Z.land_lor_distr_l, Hm.
    rewrite <- Hcl, <- Z.land_assoc, (Z.land_comm 0xF0000000), Htop, Z.land_0_r.
    apply Z.lor_0_r. }
  assert (Hinst_c : Z.shiftr inst 28 = c).
  { subst inst. rewrite Z.shiftr_lor, Hcr.
    rewrite (land_top_nibble _ Hu) in Ht.
    assert (Hz : Z.shiftr (candidate g true random) 28 = 0) by lia.
    rewrite Hz. apply Z.lor_0_l. }
  split; [exact Hinst_u|]. split; [exact Hinst_m|]. split; [exact Hinst_c|].
  intros Hin.
  unfold DecodeVFP2. rewrite (unconditional_test inst Hinst_u).
  assert (Hne : (Z.shiftr inst 28 =? 0xF) = false) by (apply Z.eqb_neq; lia).
  rewrite Hne.
  pose proof (find_first (fun matcher => Decoder.Matches matcher inst) table) as Hfind.
  destruct (List.find (fun matcher => Decoder.Matches matcher inst) table) as [m|];
    [exists m; reflexivity|].
  exfalso. rewrite Forall_forall in Hfind.
  specialize (Hfind _ Hin). unfold Decoder.Matches in Hfind. cbn in Hfind.
  apply Z.eqb_neq in Hfind. apply Hfind. exact Hinst_m.
Qed.

End GenerateProperties.

(** ** Comparison of extension registers, dispatch constants, element
    selection *)
Section HarnessProperties.

Lemma fold_left_andb {A} (f : A -> bool) (l : list A) (acc : bool) :
  fold_left (fun res i => res && f i) l acc = acc && forallb f l.
Proof.
  revert acc. induction l as [|a l IH]; intros acc; simpl.
  - symmetry. apply andb_true_r.
  - rewrite IH. symmetry. apply andb_assoc.
Qed.

Lemma CmpIgnoreSignedZeros_forall (a b : list Z) :
  CmpIgnoreSignedZeros a b = true
  <-> forall i : nat, (i < 64)%nat ->
        same_ignoring_signed_zero (a !!! i) (b !!! i) = true.
Proof.
  change (CmpIgnoreSignedZeros a b)
    with (fold_left
            (fun res i => res && same_ignoring_signed_zero (a !!! i) (b !!! i))
            (seq 0 64) true).
  rewrite (fold_left_andb
             (fun i => same_ignoring_signed_zero (a !!! i) (b !!! i)) (seq 0 64) true).
  cbn [andb]. rewrite forallb_forall. split.
  - intros H i Hi. apply H. apply in_seq. lia.
  - intros H i Hi. apply H. apply in_seq in Hi. lia.
Qed.

Lemma same_ignoring_signed_zero_refl x : same_ignoring_signed_zero x x = true.
Proof.
  unfold same_ignoring_signed_zero.
  destruct (signed_zero x && signed_zero x); [reflexivity | apply Z.eqb_refl].
Qed.

Lemma same_ignoring_signed_zero_sym x y :
  same_ignoring_signed_zero x y = same_ignoring_signed_zero y x.
Proof.
  unfold same_ignoring_signed_zero.
  rewrite (andb_comm (signed_zero x)), (Z.eqb_sym x y). reflexivity.
Qed.

Lemma same_ignoring_signed_zero_trans x y z :
  same_ignoring_signed_zero x y = true ->
  same_ignoring_signed_zero y z = true ->
  same_ignoring_signed_zero x z = true.
Proof.
  unfold same_ignoring_signed_zero.
  destruct (signed_zero x) eqn:Hx, (signed_zero y) eqn:Hy, (signed_zero z) eqn:Hz;
    cbn [andb]; intros H1 H2; try reflexivity;
    try apply Z.eqb_eq in H1; try apply Z.eqb_eq in H2; subst;
    try congruence; apply Z.eqb_refl.
Qed.

Lemma signed_zero_u32 x :
  is_u32 x -> (signed_zero x = true <-> x = 0 \/ x = 0x80000000).
Proof.
  intros [Hx0 Hx1]. unfold signed_zero.
  change 0x7FFFFFFF with (Z.ones 31). rewrite Z.land_ones by lia.
  rewrite Z.eqb_eq. split.
  - intros Hm. pose proof (Z.div_mod x (2 ^ 31) ltac:(lia)) as Hdiv.
    assert (Hq : 0 <= x / 2 ^ 31 < 2).
    { split; [apply Z.div_pos; lia | apply Z.div_lt_upper_bound; lia]. }
    assert (x / 2 ^ 31 = 0 \/ x / 2 ^ 31 = 1) as [Hq0|Hq1] by lia; [left|right]; lia.
  - intros [->| ->]; reflexivity.
Qed.

(** X18: [CmpIgnoreSignedZeros] holds iff at each of the 64 positions the
    two words are equal or are both a zero of either sign ([0] or
    [0x80000000]).  It is an equivalence: reflexive, symmetric and
    transitive. *)
Theorem CmpIgnoreSignedZeros_equivalence (a b c : list Z) :
  (Forall is_u32 a -> Forall is_u32 b ->
   length a = 64%nat -> length b = 64%nat ->
   (CmpIgnoreSignedZeros a b = true
    <-> forall i : nat, (i < 64)%nat ->
          a !!! i = b !!! i
          \/ ((a !!! i = 0 \/ a !!! i = 0x80000000)
              /\ (b !!! i = 0 \/ b !!! i = 0x80000000))))
  /\ CmpIgnoreSignedZeros a a = true
  /\ CmpIgnoreSignedZeros a b = CmpIgnoreSignedZeros b a
  /\ (CmpIgnoreSignedZeros a b = true ->
      CmpIgnoreSignedZeros b c = true ->
      CmpIgnoreSignedZeros a c = true).
Proof.
  split; [|split; [|split]].
  - intros Ha Hb Hla Hlb. rewrite CmpIgnoreSignedZeros_forall.
    assert (Hu : forall (l : list Z) (i : nat),
               Forall is_u32 l -> length l = 64%nat -> (i < 64)%nat -> is_u32 (l !!! i)).
    { intros l i Hl Hlen Hi.
      destruct (lookup_lt_is_Some_2 l i ltac:(lia)) as [x Hx].
      rewrite (list_lookup_total_correct l i x Hx).
      rewrite Forall_forall in Hl. apply Hl.
      apply list_elem_of_In. apply list_elem_of_lookup. eauto. }
    split; intros H i Hi; specialize (H i Hi);
      pose proof (signed_zero_u32 _ (Hu a i Ha Hla Hi)) as Hza;
      pose proof (signed_zero_u32 _ (Hu b i Hb Hlb Hi)) as Hzb;
      unfold same_ignoring_signed_zero in *.
    + destruct (signed_zero (a !!! i)), (signed_zero (b !!! i)); cbn [andb] in H.
      * right. split; [apply Hza | apply Hzb]; reflexivity.
      * left. apply Z.eqb_eq. exact H.
      * left. apply Z.eqb_eq. exact H.
      * left. apply Z.eqb_eq. exact H.
    + destruct H as [Heq|[Ha0 Hb0]].
      * rewrite Heq. destruct (signed_zero (b !!! i) && signed_zero (b !!! i));
          [reflexivity | apply Z.eqb_refl].
      * apply Hza in Ha0. apply Hzb in Hb0. rewrite Ha0, Hb0. reflexivity.
  - apply CmpIgnoreSignedZeros_forall. intros i _. apply same_ignoring_signed_zero_refl.
  - apply eq_true_iff_eq. rewrite !CmpIgnoreSignedZeros_forall.
    split; intros H i Hi; rewrite same_ignoring_signed_zero_sym; apply H; exact Hi.
  - rewrite !CmpIgnoreSignedZeros_forall. intros H1 H2 i Hi.
    eapply same_ignoring_signed_zero_trans; [apply H1 | apply H2]; exact Hi.
Qed.

(** X19: masking any hash with [fast_dispatch_table_mask] gives the byte
    offset of a slot of the table: a multiple of the entry size, namely
    entry [(hash >> 4) & 0xFFFF], below the table's size in bytes. *)
Theorem fast_dispatch_offset_in_table (hash : Z) :
  Z.land hash A32EmitX64.fast_dispatch_table_mask
  = A32EmitX64.sizeof_FastDispatchEntry
    * Z.land (Z.shiftr hash 4) (A32EmitX64.fast_dispatch_table_size - 1)
  /\ 0 <= Z.land (Z.shiftr hash 4) (A32EmitX64.fast_dispatch_table_size - 1)
       < A32EmitX64.fast_dispatch_table_size
  /\ 0 <= Z.land hash A32EmitX64.fast_dispatch_table_mask
       < A32EmitX64.fast_dispatch_table_size * A32EmitX64.sizeof_FastDispatchEntry.
Proof.
  unfold A32EmitX64.fast_dispatch_table_mask, A32EmitX64.sizeof_FastDispatchEntry,
    A32EmitX64.fast_dispatch_table_size.
  change (0x10000 - 1) with (Z.ones 16).
  assert (Heq : Z.land hash 0xFFFF0 = 0x10 * Z.land (Z.shiftr hash 4) (Z.ones 16)).
  { rewrite Z.mul_comm. change 0x10 with (2 ^ 4).
    rewrite <- Z.shiftl_mul_pow2 by lia.
    apply Z.bits_inj'. intros n Hn.
    change 0xFFFF0 with (Z.shiftl (Z.ones 16) 4).
    rewrite Z.land_spec, !Z.shiftl_spec by lia. rewrite Z.land_spec.
    destruct (Z.lt_ge_cases (n - 4) 0) as [Hlow|Hhigh].
    - rewrite !(Z.testbit_neg_r _ (n - 4)) by lia. rewrite !andb_false_r. reflexivity.
    - rewrite Z.shiftr_spec by lia. replace (n - 4 + 4) with n by lia. reflexivity. }
  assert (Hidx : 0 <= Z.land (Z.shiftr hash 4) (Z.ones 16) < 0x10000).
  { rewrite Z.land_ones by lia. apply Z.mod_pos_bound. lia. }
  split; [exact Heq|]. split; [exact Hidx|]. rewrite Heq. lia.
Qed.

End HarnessProperties.

Section ElementSelection.
Import SimdScalarIndexedElement.

Ltac enumerate x :=
  match goal with
  | H : 0 <= x < 2 |- _ =>
      let E := fresh in
      assert (E : x = 0 \/ x = 1) by lia; clear H; destruct E as [->| ->]
  | H : 0 <= x < 4 |- _ =>
      let E := fresh in
      assert (E : x = 0 \/ x = 1 \/ x = 2 \/ x = 3) by lia; clear H;
      destruct E as [->|[->|[->| ->]]]
  end.

Ltac compute_concatenate :=
  unfold concatenate;
  repeat match goal with
         | |- context [Z.lor ?a ?b] =>
             let v := eval vm_compute in (Z.lor a b) in
             change (Z.lor a b) with v
         | |- context [Z.shiftl ?a ?b] =>
             let v := eval vm_compute in (Z.shiftl a b) in
             change (Z.shiftl a b) with v
         end.

Lemma concatenate_register (M Vmlo : Z) :
  0 <= M < 2 -> 0 <= Vmlo < 16 ->
  concatenate M Vmlo 4 = 16 * M + Vmlo.
Proof.
  intros HM HV. unfold concatenate.
  assert (E : Vmlo = 0 \/ Vmlo = 1 \/ Vmlo = 2 \/ Vmlo = 3 \/ Vmlo = 4 \/ Vmlo = 5
              \/ Vmlo = 6 \/ Vmlo = 7 \/ Vmlo = 8 \/ Vmlo = 9 \/ Vmlo = 10
              \/ Vmlo = 11 \/ Vmlo = 12 \/ Vmlo = 13 \/ Vmlo = 14 \/ Vmlo = 15) by lia.
  enumerate M;
    repeat (destruct E as [->|E]; [reflexivity|]); subst; reflexivity.
Qed.

(** X20: [MultiplyByElement] (FMLA, FMLS, FMUL and FMULX by element)
    reserves exactly the encodings with [sz] set and [L = 1].  For every
    other encoding the element it reads lies inside the part of the
    register it loads: 64 bits when [H = 0], 128 bits when [H = 1]; the
    register number is [16 M + Vmlo]. *)
Theorem MultiplyByElement_element_in_range (sz : bool) (L M Vmlo H : Z) :
  0 <= L < 2 -> 0 <= M < 2 -> 0 <= Vmlo < 16 -> 0 <= H < 2 ->
  match MultiplyByElement_select sz L M Vmlo H with
  | ReservedValue => sz = true /\ L = 1
  | Element esize idxdsize index Vm =>
      ~ (sz = true /\ L = 1)
      /\ esize = (if sz then 64 else 32)
      /\ idxdsize = (if H =? 1 then 128 else 64)
      /\ 0 <= index
      /\ (index + 1) * esize <= idxdsize
      /\ Vm = 16 * M + Vmlo
  end.
Proof.
  intros HL HM HV HH. unfold MultiplyByElement_select.
  rewrite (concatenate_register M Vmlo HM HV).
  destruct sz; enumerate L; enumerate H; compute_concatenate; cbn;
    repeat split; try lia; try (intros [? ?]; discriminate).
Qed.

(** X21: [SQDMULH_elt_1], [SQRDMULH_elt_1] and [SQDMULL_elt_1] reserve
    exactly [size = 0] and [size = 3].  For halfwords the index has three
    bits and the register is one of the first sixteen; for words the
    index has two bits and the register number five.  In both cases the
    element lies inside the 128-bit register. *)
Theorem SQDMULH_elt_1_element_in_range (size L M Vmlo H : Z) :
  0 <= size < 4 -> 0 <= L < 2 -> 0 <= M < 2 -> 0 <= Vmlo < 16 -> 0 <= H < 2 ->
  match SQDMULH_elt_1_select size L M Vmlo H with
  | ReservedValue => size = 0 \/ size = 3
  | Element esize datasize index Vm =>
      (size = 1 \/ size = 2)
      /\ esize = 8 * 2 ^ size
      /\ datasize = 128
      /\ 0 <= index
      /\ (index + 1) * esize <= datasize
      /\ (size = 1 -> index = 4 * H + 2 * L + M /\ Vm = Vmlo)
      /\ (size = 2 -> index = 2 * H + L /\ Vm = 16 * M + Vmlo)
  end.
Proof.
  intros Hs HL HM HV HH. unfold SQDMULH_elt_1_select, Combine.
  pose proof (concatenate_register M Vmlo HM HV) as Hreg.
  enumerate size; cbn [Z.eqb orb Pos.eqb fst snd]; try (left; reflexivity);
    try (right; reflexivity).
  - enumerate L; enumerate M; enumerate H; compute_concatenate; cbn;
      repeat split; lia.
  - rewrite Hreg.
    enumerate L; enumerate H; compute_concatenate; cbn; repeat split; lia.
Qed.

End ElementSelection.

(** ** The further properties on concrete states *)
Section FurtherEvaluation.
#[local] Existing Instance sample_ops.
#[local] Existing Instance sample_collaborators.

(** X3, on concrete states. *)
Lemma ClearCache_behaviour_witness :
  invalid_cache_generation (ClearCache sample_jit) = 4
  /\ ClearCache sample_running
     = set_jit_state (set_halt_requested true sample_jit_state)
         (set_invalidate_entire_cache true sample_running).
Proof.
  split.
  - rewrite (proj1 (ClearCache_behaviour sample_jit) eq_refl). reflexivity.
  - apply (proj2 (ClearCache_behaviour sample_running) eq_refl).
Defined.

(** X4, on a concrete state. *)
Lemma LoadContext_after_Reset_witness :
  exists j',
    Reset sample_jit = Ok j'
    /\ LoadContext (SaveContext sample_jit Context_new) j'
       = set_jit_state (set_halt_requested false sample_jit_state) sample_jit.
Proof. apply (LoadContext_after_Reset sample_jit Context_new eq_refl). Defined.

(** X6, on a concrete state: the context saved at generation 3 is stale
    once [invalidate_range(4, 4)] has been serviced. *)
Lemma LoadContext_stale_after_invalidation_witness :
  LoadContext_reset_rsb
    (SaveContext (set_invalid_cache_ranges [(4, 7)] sample_jit) Context_new)
    (PerformCacheInvalidation (set_invalid_cache_ranges [(4, 7)] sample_jit))
  = true.
Proof.
  apply (LoadContext_stale_after_invalidation
           (set_invalid_cache_ranges [(4, 7)] sample_jit) Context_new).
  - vm_compute. split; [discriminate | reflexivity].
  - right. reflexivity.
Defined.

(** X7, on a concrete state: the block emitted for [0x100] is found
    again, and the state stays as it is. *)
Lemma GetBasicBlock_keeps_guest_state_witness :
  GetBasicBlock 0x100 (GetBasicBlock 0x100 sample_jit).2
  = (mkBlockDescriptor 4096 64, (GetBasicBlock 0x100 sample_jit).2).
Proof.
  apply (proj2 (proj2 (GetBasicBlock_keeps_guest_state 0x100
                         (GetBasicBlock 0x100 sample_jit).2))).
  vm_compute. reflexivity.
Defined.

(** X8, on a concrete state: with 128 MiB less 4 KiB free the block goes
    to the bump pointer and the generation stays 3. *)
Lemma GetBasicBlock_enough_space_witness :
  (GetBasicBlock 0x100 sample_jit).1 = mkBlockDescriptor 4096 64
  /\ invalid_cache_generation (GetBasicBlock 0x100 sample_jit).2 = 3.
Proof.
  assert (Hspace : 1024 * 1024 <= BlockOfCode.SpaceRemaining (block_of_code sample_jit))
    by (vm_compute; discriminate).
  destruct (GetBasicBlock_enough_space 0x100 sample_jit eq_refl Hspace)
    as (Heq & _ & Hgen & _).
  split; [rewrite Heq; reflexivity | exact Hgen].
Defined.

(** X9, on a concrete state: [rsb_ptr] is 1 and slot 0 holds the hash of
    the current location, so execution resumes at the recorded pointer. *)
Lemma Execute_rsb_hint_witness :
  Execute sample_jit
  = RunCodeFrom 0x7F0000001000
      (set_jit_state (set_rsb_ptr 0 sample_jit_state) sample_jit).
Proof.
  apply (proj1 (proj2 (Execute_rsb_hint sample_jit))). reflexivity.
Defined.

(** X10, on a concrete state: [invalidate_range(4, 4)] outside [Run]. *)
Lemma InvalidateCacheRange_immediate_witness :
  invalid_cache_generation (InvalidateCacheRange 4 4 sample_jit) = 4
  /\ jit_state (InvalidateCacheRange 4 4 sample_jit) = ResetRSB sample_jit_state.
Proof.
  assert (Hs : is_u32 4) by (unfold is_u32; lia).
  assert (Hl : 1 <= 4) by lia.
  assert (He : 4 + 4 <= 2 ^ 32) by lia.
  destruct (InvalidateCacheRange_immediate 4 4 sample_jit Hs Hl He
              (Forall_nil _) eq_refl eq_refl) as [_ Heq].
  rewrite Heq. split; reflexivity.
Defined.

(** X12, on a concrete state: [ClearCache] outside [Run] steps the
    generation, and the RSB has been reset. *)
Lemma generation_steps_with_rsb_reset_witness :
  invalid_cache_generation (ClearCache sample_jit) = invalid_cache_generation sample_jit
  \/ (invalid_cache_generation (ClearCache sample_jit)
      = wrap64 (invalid_cache_generation sample_jit + 1)
      /\ get_rsb (jit_state (ClearCache sample_jit)) = rsb_after_reset sample_jit_state
      /\ invalid_cache_ranges (ClearCache sample_jit) = IntervalSet.empty
      /\ invalidate_entire_cache (ClearCache sample_jit) = false).
Proof.
  apply (generation_steps_with_rsb_reset OpClearCache sample_jit (ClearCache sample_jit)).
  - discriminate.
  - reflexivity.
Defined.

(** X13, on the calls one round of [FuzzJitArm] makes. *)
Lemma facade_steps_never_fail_witness :
  exists j',
    facade_steps
      [OpClearCache; OpReset; OpSetCpsr 0x1D0; OpWriteRegs (replicate 16 0);
       OpWriteExtRegs (replicate 64 0); OpSetFpscr 0x01000000; OpRun]
      sample_jit = Ok j'
    /\ idle j'.
Proof.
  apply facade_steps_never_fail. repeat split.
Defined.

(** X15, on the VMOV pattern: bit 27 is fixed to one, bit 31 is free. *)
Lemma InstructionGenerator_new_bits_witness :
  exists g,
    InstructionGenerator.new sample_format (fun _ => true) = Some g
    /\ Z.testbit (InstructionGenerator.mask g) 27 = true
    /\ Z.testbit (InstructionGenerator.bits g) 27 = true
    /\ Z.testbit (InstructionGenerator.mask g) 31 = false.
Proof.
  destruct (proj2 (InstructionGenerator_new_bits sample_format (fun _ => true)) eq_refl)
    as (g & Hnew & _ & _ & _ & _ & Hbits).
  exists g. split; [exact Hnew|]. split; [|split].
  - exact (proj1 (Hbits 4%nat "1"%char eq_refl)).
  - exact (proj2 (Hbits 4%nat "1"%char eq_refl)).
  - exact (proj1 (Hbits 0%nat "c"%char eq_refl)).
Defined.

(** X17, on the VMOV pattern and one draw. *)
Lemma Generate_matches_pattern_witness :
  Z.shiftr 0xEE045B10 28 = 0xE
  /\ exists m,
       DecodeVFP2 [Decoder.GetMatcher "VMOV" sample_format] 0xEE045B10 = Some m.
Proof.
  assert (Hu : is_u32 0x0E000B10) by (unfold is_u32; lia).
  assert (Hc : 0 <= 0 <= 0xD) by lia.
  destruct (Generate_matches_pattern
              (InstructionGenerator.mk 0x0E000B10 0x0FF00F7F (fun _ => true))
              [0x12345678] 2 0 0xEE045B10
              [Decoder.GetMatcher "VMOV" sample_format] "VMOV"
              Hu eq_refl eq_refl Hc eq_refl)
    as (_ & _ & Hcond & Hdec).
  split; [exact Hcond|]. apply Hdec. left. reflexivity.
Defined.

(** X18, on concrete arrays: [+0] against [-0] in one position. *)
Lemma CmpIgnoreSignedZeros_equivalence_witness :
  CmpIgnoreSignedZeros (0 :: replicate 63 5) (0x80000000 :: replicate 63 5) = true.
Proof.
  pose proof (CmpIgnoreSignedZeros_equivalence
                (0 :: replicate 63 5) (0x80000000 :: replicate 63 5)
                (0 :: replicate 63 5)) as (_ & _ & _ & Htrans).
  apply Htrans; reflexivity.
Defined.

(** X20, on FMUL (by element) with [sz = 0], [H = 1], [L = 1]: word 3 of
    the 128-bit register. *)
Lemma MultiplyByElement_element_in_range_witness :
  match SimdScalarIndexedElement.MultiplyByElement_select false 1 0 7 1 with
  | SimdScalarIndexedElement.ReservedValue => false = true /\ 1 = 1
  | SimdScalarIndexedElement.Element esize idxdsize index Vm =>
      ~ (false = true /\ 1 = 1)
      /\ esize = 32
      /\ idxdsize = 128
      /\ 0 <= index
      /\ (index + 1) * esize <= idxdsize
      /\ Vm = 16 * 0 + 7
  end.
Proof.
  apply (MultiplyByElement_element_in_range false 1 0 7 1); lia.
Defined.

(** X21, on SQDMULH (by element) with halfwords, [H:L:M = 5]. *)
Lemma SQDMULH_elt_1_element_in_range_witness :
  match SimdScalarIndexedElement.SQDMULH_elt_1_select 1 0 1 9 1 with
  | SimdScalarIndexedElement.ReservedValue => 1 = 0 \/ 1 = 3
  | SimdScalarIndexedElement.Element esize datasize index Vm =>
      (1 = 1 \/ 1 = 2)
      /\ esize = 8 * 2 ^ 1
      /\ datasize = 128
      /\ 0 <= index
      /\ (index + 1) * esize <= datasize
      /\ (1 = 1 -> index = 4 * 1 + 2 * 0 + 1 /\ Vm = 9)
      /\ (1 = 2 -> index = 2 * 1 + 0 /\ Vm = 16 * 1 + 9)
  end.
Proof.
  apply (SQDMULH_elt_1_element_in_range 1 0 1 9 1); lia.
Defined.

End FurtherEvaluation.
